(** * epd7in5: the Waveshare 7.5inch e-paper driver

    A shallow embedding of [epd7in5.go].  Bytes and Go [int]s are integers
    of [Z]; the byte operations have their wrap-around written out.  The
    GPIO lines, the SPI connection, the clock and the logger are modelled
    by a recorded trace of events; line and channel operations may fail and
    the busy line is read from the panel, both decided by an oracle. *)

From Stdlib Require Import ZArith List Bool Lia String.
From stdpp Require Import base list.
Import ListNotations.

Local Open Scope Z_scope.

(** ** Bytes *)

Module Byte8.

Definition is_byte (b : Z) : Prop := 0 <= b < 256.

(** Truncation of an integer to the 8 bits of a Go [byte]. *)
Definition wrap (z : Z) : Z := Z.land z 255.

(** [^b] *)
Definition not (b : Z) : Z := wrap (Z.lnot b).

(** [a << n] *)
Definition shl (a n : Z) : Z := wrap (Z.shiftl a n).

(** [a >> n] *)
Definition shr (a n : Z) : Z := Z.shiftr a n.

(** [a | b] and [a & b] *)
Definition or (a b : Z) : Z := Z.lor a b.
Definition and (a b : Z) : Z := Z.land a b.

End Byte8.

(** ** Constants *)

Definition Epd7in5V2Width : Z := 800.
Definition Epd7in5V2Height : Z := 480.

Definition PanelSetting : Z := 0x00.
Definition PowerSetting : Z := 0x01.
Definition PowerOff : Z := 0x02.
Definition PowerOffSequenceSetting : Z := 0x03.
Definition DeepSleep : Z := 0x07.
Definition DataStartTransmission1 : Z := 0x10.
Definition DisplayRefresh : Z := 0x12.
Definition AutoMeasurementVcom : Z := 0x80.

(** ** The hardware: lines, channel, clock, logger *)

Inductive Level : Type := Low | High.

(** The four lines held by [Epd]: [dc], [cs], [rst], [busy]. *)
Inductive Pin : Type := DC | CS | RST | BUSY.

Inductive Event : Type :=
| EvOut (p : Pin) (l : Level)        (* p.Out(l) *)
| EvTx (w : list Z)                  (* c.Tx(w, nil): the response is not read *)
| EvRead (l : Level)                 (* busy.Read() returned l *)
| EvSleep (ms : Z)                   (* time.Sleep(ms * time.Millisecond) *)
| EvLog (msg : string).              (* log.Println(msg) *)

(** What the outside decides: whether the n-th line or channel operation
    fails, and the level the n-th read of the busy line returns. *)
Record Panel : Type := mkPanel {
  io_fails : nat -> bool;
  busy_level : nat -> Level
}.

(** The events so far (newest first), the number of line and channel
    operations attempted and the number of reads of the busy line. *)
Record HW : Type := mkHW {
  log : list Event;
  ops : nat;
  polls : nat
}.

Definition hw0 : HW := mkHW [] 0 0.

(** The events in the order they happened. *)
Definition trace (s : HW) : list Event := rev (log s).

Inductive error : Type :=
| IoError (op : nat).

(** The ways a call ends: it returns, it returns an error, the Go runtime
    panics on an index out of range, or the polling loop of the busy line
    is still running when the fuel is spent. *)
Inductive Res (A : Type) : Type :=
| Ok (a : A)
| Err (e : error)
| Panic
| Hang.

Arguments Ok {A} a.
Arguments Err {A} e.
Arguments Panic {A}.
Arguments Hang {A}.

Definition M (A : Type) : Type := HW -> Res A * HW.

Definition ret {A : Type} (a : A) : M A := fun s => (Ok a, s).

Definition bind {A B : Type} (m : M A) (f : A -> M B) : M B :=
  fun s =>
    match m s with
    | (Ok a, s') => f a s'
    | (Err e, s') => (Err e, s')
    | (Panic, s') => (Panic, s')
    | (Hang, s') => (Hang, s')
    end.

Definition panic {A : Type} : M A := fun s => (Panic, s).
Definition hang {A : Type} : M A := fun s => (Hang, s).

Declare Scope hw_scope.
Delimit Scope hw_scope with hw.

Notation "'let*' x ':=' m 'in' k" := (bind m (fun x => k))
  (at level 10, x name, m at level 100, k at level 200) : hw_scope.
Notation "m >>> k" := (bind m (fun _ => k))
  (at level 66, right associativity) : hw_scope.

Local Open Scope hw_scope.

Definition record (ev : Event) (s : HW) : HW :=
  mkHW (ev :: log s) (ops s) (polls s).

Definition attempt (s : HW) : HW :=
  mkHW (log s) (S (ops s)) (polls s).

Definition polled (s : HW) : HW :=
  mkHW (log s) (ops s) (S (polls s)).

(** ** The controller handle

    The line and channel handles of [Epd] are the hardware above; what is
    left of the struct is the geometry. *)
Record Epd : Type := mkEpd {
  widthByte : Z;
  heightByte : Z
}.

(** [New], once the lines and the channel are acquired. *)
Definition New : Epd :=
  mkEpd (Epd7in5V2Width / 8) Epd7in5V2Height.

Section Driver.

Variable P : Panel.

(** A line write or a channel exchange: it fails when the panel says so,
    and then leaves no event. *)
Definition io (ev : Event) : M unit :=
  fun s =>
    if io_fails P (ops s)
    then (Err (IoError (ops s)), attempt s)
    else (Ok tt, record ev (attempt s)).

Definition pinOut (p : Pin) (l : Level) : M unit := io (EvOut p l).

Definition connTx (w : list Z) : M unit := io (EvTx w).

Definition busyRead : M Level :=
  fun s =>
    let l := busy_level P (polls s) in
    (Ok l, record (EvRead l) (polled s)).

Definition timeSleep (ms : Z) : M unit :=
  fun s => (Ok tt, record (EvSleep ms) s).

Definition logPrintln (msg : string) : M unit :=
  fun s => (Ok tt, record (EvLog msg) s).

(** [for i := 0; i < n; i++ { body }], left at the first failure. *)
Fixpoint forFrom (count : nat) (i : Z) (body : Z -> M unit) : M unit :=
  match count with
  | O => ret tt
  | S count' => body i >>> forFrom count' (i + 1) body
  end.

Definition forUpTo (n : Z) (body : Z -> M unit) : M unit :=
  forFrom (Z.to_nat n) 0 body.

(** *** The operations of [Epd] *)

Definition Reset : M unit :=
  pinOut RST High >>>
  timeSleep 20 >>>
  pinOut RST Low >>>
  timeSleep 2 >>>
  pinOut RST High >>>
  timeSleep 20.

Definition sendCommand (cmd : Z) : M unit :=
  pinOut DC Low >>>
  pinOut CS Low >>>
  connTx [cmd] >>>
  pinOut CS High.

Definition sendData (data : Z) : M unit :=
  pinOut DC High >>>
  pinOut CS Low >>>
  connTx [data] >>>
  pinOut CS High.

(** The loop of [waitUntilIdle]: [for e.busy.Read() == gpio.Low]. *)
Fixpoint pollBusy (fuel : nat) : M unit :=
  match fuel with
  | O => hang
  | S fuel' =>
      let* l := busyRead in
      match l with
      | Low => timeSleep 5 >>> pollBusy fuel'
      | High => ret tt
      end
  end.

Definition waitUntilIdle (fuel : nat) : M unit :=
  logPrintln "e-paper busy" >>>
  pollBusy fuel >>>
  timeSleep 5 >>>
  logPrintln "e-paper busy release".

Definition turnOnDisplay (fuel : nat) : M unit :=
  sendCommand DisplayRefresh >>>
  timeSleep 100 >>>
  waitUntilIdle fuel.

Definition Init (fuel : nat) : M unit :=
  logPrintln "e-paper init" >>>
  Reset >>>
  sendCommand PowerSetting >>>
  sendData 0x07 >>>
  sendData 0x07 >>>
  sendData 0x3f >>>
  sendData 0x3f >>>
  sendCommand 0x06 >>>
  sendData 0x17 >>>
  sendData 0x17 >>>
  sendData 0x28 >>>
  sendData 0x17 >>>
  sendCommand 0x04 >>>
  timeSleep 100 >>>
  waitUntilIdle fuel >>>
  sendCommand 0x00 >>>
  sendData 0x1F >>>
  sendCommand 0x61 >>>
  sendData 0x03 >>>
  sendData 0x20 >>>
  sendData 0x01 >>>
  sendData 0xE0 >>>
  sendCommand 0x15 >>>
  sendData 0x00 >>>
  sendCommand 0x50 >>>
  sendData 0x10 >>>
  sendData 0x07 >>>
  sendCommand 0x60 >>>
  sendData 0x22.

Definition InitFast (fuel : nat) : M unit :=
  Reset >>>
  sendCommand 0x00 >>>
  sendData 0x1F >>>
  sendCommand 0x50 >>>
  sendData 0x10 >>>
  sendData 0x07 >>>
  sendCommand 0x04 >>>
  timeSleep 100 >>>
  waitUntilIdle fuel >>>
  sendCommand 0x06 >>>
  sendData 0x27 >>>
  sendData 0x27 >>>
  sendData 0x18 >>>
  sendData 0x17 >>>
  sendCommand 0xE0 >>>
  sendData 0x02 >>>
  sendData 0xE5 >>>
  sendData 0x5A.

Definition InitPart (fuel : nat) : M unit :=
  Reset >>>
  sendCommand 0x00 >>>
  sendData 0x1F >>>
  sendCommand 0x04 >>>
  timeSleep 100 >>>
  waitUntilIdle fuel >>>
  sendCommand 0xE0 >>>
  sendData 0x02 >>>
  sendCommand 0xE5 >>>
  sendData 0x6E.

Definition Clear (fuel : nat) (e : Epd) : M unit :=
  sendCommand DataStartTransmission1 >>>
  forUpTo (heightByte e) (fun j =>
    forUpTo (widthByte e) (fun i =>
      forUpTo 4 (fun k =>
        sendData 0x33))) >>>
  turnOnDisplay fuel.

(** [img[i]]: the runtime panics when [i] is out of range. *)
Definition index (img : list Z) (i : Z) : M Z :=
  if i <? 0 then panic
  else match img !! Z.to_nat i with
       | Some b => ret b
       | None => panic
       end.

(** The two codes of [Display]: [PanelSetting] when the top bit of
    [dataBlack] is set, [PowerOffSequenceSetting] otherwise. *)
Definition nibbleOf (dataBlack : Z) : Z :=
  if Byte8.and dataBlack AutoMeasurementVcom >? 0
  then PanelSetting
  else PowerOffSequenceSetting.

(** [for k := 0; k < 8; k++ { ... k++ ... }]: the body advances [k] once
    more, and shifts [dataBlack] twice.  [trips] bounds the number of
    trips; 8 is enough from [k = 0]. *)
Fixpoint displayBits (trips : nat) (k : Z) (dataBlack : Z) : M unit :=
  match trips with
  | O => if k <? 8 then hang else ret tt
  | S trips' =>
      if k <? 8 then
        let data := nibbleOf dataBlack in
        let data := Byte8.shl data 4 in
        let dataBlack := Byte8.shl dataBlack 1 in
        let k := k + 1 in
        let data := Byte8.or data (nibbleOf dataBlack) in
        let dataBlack := Byte8.shl dataBlack 1 in
        sendData data >>>
        displayBits trips' (k + 1) dataBlack
      else ret tt
  end.

Definition Display (fuel : nat) (e : Epd) (img : list Z) : M unit :=
  logPrintln "Start e-paper display" >>>
  sendCommand DataStartTransmission1 >>>
  forUpTo (heightByte e) (fun j =>
    forUpTo (widthByte e) (fun i =>
      let* b := index img (i + j * widthByte e) in
      displayBits 8 0 (Byte8.not b))) >>>
  logPrintln "End e-paper display image process" >>>
  turnOnDisplay fuel >>>
  logPrintln "End e-paper display".

Definition Sleep (fuel : nat) : M unit :=
  sendCommand PowerOff >>>
  waitUntilIdle fuel >>>
  sendCommand DeepSleep >>>
  sendData 0xA5.

End Driver.

(** ** Images: Go's [image] and [image/color] as far as [Convert] uses them *)

Module Img.

(** A colour, as the four 16-bit alpha-premultiplied channels that
    [Color.RGBA()] returns. *)
Record Color : Type := mkColor { cR : Z; cG : Z; cB : Z; cA : Z }.

(** [color.Black], [color.White] ([Gray16{0}], [Gray16{0xffff}]). *)
Definition Black : Color := mkColor 0 0 0 0xffff.
Definition White : Color := mkColor 0xffff 0xffff 0xffff 0xffff.

(** The zero colour, which the images of the standard library return
    outside their bounds. *)
Definition Transparent : Color := mkColor 0 0 0 0.

Record Rectangle : Type := mkRect { MinX : Z; MinY : Z; MaxX : Z; MaxY : Z }.

Definition Dx (r : Rectangle) : Z := MaxX r - MinX r.
Definition Dy (r : Rectangle) : Z := MaxY r - MinY r.

(** [Point{x, y}.In(r)] *)
Definition inside (x y : Z) (r : Rectangle) : bool :=
  (MinX r <=? x) && (x <? MaxX r) && (MinY r <=? y) && (y <? MaxY r).

(** [image.Image]: [Bounds()] and [At(x, y)]. *)
Record Image : Type := mkImage {
  Bounds : Rectangle;
  At : Z -> Z -> Color
}.

Definition u32 (z : Z) : Z := z mod 2 ^ 32.

(** [sqDiff]: [d := x - y; return (d * d) >> 2] on [uint32]. *)
Definition sqDiff (x y : Z) : Z :=
  let d := u32 (x - y) in
  Z.shiftr (u32 (d * d)) 2.

(** The loop of [Palette.Index]: the entry closest to [c]. *)
Fixpoint indexLoop (p : list Color) (c : Color) (i ret bestSum : Z) : Z :=
  match p with
  | [] => ret
  | v :: p' =>
      let sum := u32 (sqDiff (cR c) (cR v) + sqDiff (cG c) (cG v)
                      + sqDiff (cB c) (cB v) + sqDiff (cA c) (cA v)) in
      if sum <? bestSum then
        if sum =? 0 then i
        else indexLoop p' c (i + 1) i sum
      else indexLoop p' c (i + 1) ret bestSum
  end.

Definition PaletteIndex (p : list Color) (c : Color) : Z :=
  indexLoop p c 0 0 (2 ^ 32 - 1).

End Img.

(** ** The frame converter *)

(** [bytes.Repeat([]byte{b}, count)]; it panics on a negative count. *)
Definition bytesRepeat (b : Z) (count : Z) : option (list Z) :=
  if count <? 0 then None else Some (replicate (Z.to_nat count) b).

(** [buffer[i] = v]; the runtime panics when [i] is out of range. *)
Definition store (buffer : list Z) (i : Z) (v : Z) : option (list Z) :=
  if (0 <=? i) && (i <? Z.of_nat (length buffer))
  then Some (<[Z.to_nat i := v]> buffer)
  else None.

(** A [for] loop over a state, left when the body panics. *)
Fixpoint foldFrom {S : Type} (count : nat) (i : Z)
    (body : Z -> S -> option S) (s : S) : option S :=
  match count with
  | O => Some s
  | S count' =>
      match body i s with
      | Some s' => foldFrom count' (i + 1) body s'
      | None => None
      end
  end.

Definition foldUpTo {S : Type} (n : Z) (body : Z -> S -> option S) (s : S)
    : option S :=
  foldFrom (Z.to_nat n) 0 body s.

Definition bgColor : Z := 1.

(** The value of [bit] for the pixel [(i, j)] of the panel. *)
Definition pixelBit (img : Img.Image) (i j : Z) : Z :=
  if (i <? Img.Dx (Img.Bounds img)) && (j <? Img.Dy (Img.Bounds img))
  then Img.PaletteIndex [Img.Black; Img.White] (Img.At img i j)
  else bgColor.

(** The body of the inner loop of [Convert], on [(byteToSend, buffer)]. *)
Definition convertPixel (e : Epd) (img : Img.Image) (j i : Z)
    (st : Z * list Z) : option (Z * list Z) :=
  let '(byteToSend, buffer) := st in
  let bit := pixelBit img i j in
  let byteToSend :=
    if bit =? 1
    then Byte8.or byteToSend (Byte8.shr AutoMeasurementVcom (Z.rem (Img.u32 i) 8))
    else byteToSend in
  if Z.rem i 8 =? 7 then
    match store buffer (Z.quot i 8 + j * widthByte e) byteToSend with
    | Some buffer' => Some (PanelSetting, buffer')
    | None => None
    end
  else Some (byteToSend, buffer).

(** [Convert], with the two loop bounds named. *)
Definition convertOn (width height : Z) (e : Epd) (img : Img.Image)
    : option (list Z) :=
  match bytesRepeat PanelSetting (widthByte e * heightByte e) with
  | None => None
  | Some buffer =>
      match
        foldUpTo height (fun j => foldUpTo width (convertPixel e img j))
          (PanelSetting, buffer)
      with
      | Some (_, buffer') => Some buffer'
      | None => None
      end
  end.

Definition Convert (e : Epd) (img : Img.Image) : option (list Z) :=
  convertOn Epd7in5V2Width Epd7in5V2Height e img.

(** ** The bytes of the converted frame

    [setPixel] is the update of [byteToSend] for one pixel, [rowByte] the
    value stored for the byte [c] of the row [j], [frameOn] the buffer a
    full conversion leaves. *)

Definition setPixel (img : Img.Image) (j i : Z) (byteToSend : Z) : Z :=
  if pixelBit img i j =? 1
  then Byte8.or byteToSend (Byte8.shr AutoMeasurementVcom (Z.rem (Img.u32 i) 8))
  else byteToSend.

Definition rowByte (img : Img.Image) (j c : Z) : Z :=
  fold_left (fun acc t => setPixel img j (8 * c + t) acc) (seqZ 0 8) PanelSetting.

Definition frameByte (w : Z) (img : Img.Image) (k : Z) : Z :=
  rowByte img (k / w) (k mod w).

Definition frameOn (w h : Z) (img : Img.Image) : list Z :=
  frameByte w img <$> seqZ 0 (w * h).

Definition frame (img : Img.Image) : list Z :=
  frameOn (widthByte New) (heightByte New) img.

(** A pixel of the panel is white in the conversion when its [bit] is 1. *)
Definition white (img : Img.Image) (i j : Z) : bool := pixelBit img i j =? 1.

(** ** What goes over the lines *)

Definition commandEvents (cmd : Z) : list Event :=
  [EvOut DC Low; EvOut CS Low; EvTx [cmd]; EvOut CS High].

Definition dataEvents (data : Z) : list Event :=
  [EvOut DC High; EvOut CS Low; EvTx [data]; EvOut CS High].

Definition dataRun (ds : list Z) : list Event :=
  concat (map dataEvents ds).

Definition resetEvents : list Event :=
  [EvOut RST High; EvSleep 20; EvOut RST Low; EvSleep 2; EvOut RST High;
   EvSleep 20].

(** The busy line read low [n] times, then high. *)
Definition pollEvents (n : nat) : list Event :=
  concat (replicate n [EvRead Low; EvSleep 5]) ++ [EvRead High].

Definition idleWaitEvents (n : nat) : list Event :=
  EvLog "e-paper busy" :: pollEvents n
    ++ [EvSleep 5; EvLog "e-paper busy release"].

Definition refreshEvents (n : nat) : list Event :=
  commandEvents DisplayRefresh ++ EvSleep 100 :: idleWaitEvents n.

(** A byte on the channel, by the level of the data/command line when it
    was exchanged. *)
Inductive Frame : Type :=
| Command (b : Z)
| Data (b : Z).

Definition framed (dc : Level) (b : Z) : Frame :=
  match dc with
  | Low => Command b
  | High => Data b
  end.

Fixpoint exchanged (dc : Level) (evs : list Event) : list Frame :=
  match evs with
  | [] => []
  | EvOut DC l :: evs' => exchanged l evs'
  | EvTx w :: evs' => map (framed dc) w ++ exchanged dc evs'
  | _ :: evs' => exchanged dc evs'
  end.

(** [New] leaves the data/command line low. *)
Definition wire (evs : list Event) : list Frame := exchanged Low evs.

(** ** Assumptions on the panel *)

Definition reliable (P : Panel) : Prop :=
  forall n : nat, io_fails P n = false.

(** From the state [s] on, the busy line reads low [n] times and then high. *)
Definition idleAfter (P : Panel) (s : HW) (n : nat) : Prop :=
  (forall k : nat, (k < n)%nat -> busy_level P (polls s + k) = Low)
  /\ busy_level P (polls s + n) = High.

(** [m] run from [s] ends with [r], having added the events [evs] and
    read the busy line [dp] times. *)
Definition yields {A : Type} (m : M A) (s : HW) (r : Res A)
    (evs : list Event) (dp : nat) : Prop :=
  exists s' : HW,
    m s = (r, s') /\ log s' = rev evs ++ log s
    /\ polls s' = (polls s + dp)%nat.

(** ** The expansion of a buffer byte in [Display] *)

(** The data bytes [displayBits] sends. *)
Fixpoint expandBits (trips : nat) (k : Z) (dataBlack : Z) : list Z :=
  match trips with
  | O => []
  | S trips' =>
      if k <? 8 then
        let data := Byte8.shl (nibbleOf dataBlack) 4 in
        let dataBlack := Byte8.shl dataBlack 1 in
        let data := Byte8.or data (nibbleOf dataBlack) in
        let dataBlack := Byte8.shl dataBlack 1 in
        data :: expandBits trips' (k + 1 + 1) dataBlack
      else []
  end.

Definition expandByte (b : Z) : list Z := expandBits 8 0 (Byte8.not b).

(** The expansion in words: a bit 1 of the buffer byte becomes the nibble
    0x3, a bit 0 the nibble 0x0, most significant bit first, two nibbles to
    a data byte. *)
Definition nibbleCode (bit : bool) : Z := if bit then 0x3 else 0x0.

Definition packNibbles (first second : Z) : Z :=
  Z.lor (Z.shiftl first 4) second.

Definition nibblePair (b : Z) (n : Z) : Z :=
  packNibbles (nibbleCode (Z.testbit b n)) (nibbleCode (Z.testbit b (n - 1))).

Definition nibbleExpansion (b : Z) : list Z :=
  [nibblePair b 7; nibblePair b 5; nibblePair b 3; nibblePair b 1].

(** ** The operating mode of the specification

    The code keeps no mode.  The specification's mode is followed here
    from the calls made on the controller since [New]. *)

Inductive Mode : Type :=
| Uninitialized
| FullRefreshReady
| FastRefreshReady
| PartialRefreshReady
| Sleeping.

Inductive Call : Type :=
| CallReset
| CallInit
| CallInitFast
| CallInitPart
| CallClear
| CallDisplay (img : list Z)
| CallSleep.

Definition specModeStep (m : Mode) (c : Call) : Mode :=
  match c with
  | CallReset => Uninitialized
  | CallInit => FullRefreshReady
  | CallInitFast => FastRefreshReady
  | CallInitPart => PartialRefreshReady
  | CallSleep => Sleeping
  | CallClear | CallDisplay _ => m
  end.

Definition specMode (calls : list Call) : Mode :=
  fold_left specModeStep calls Uninitialized.

Definition call (P : Panel) (fuel : nat) (e : Epd) (c : Call) : M unit :=
  match c with
  | CallReset => Reset P
  | CallInit => Init P fuel
  | CallInitFast => InitFast P fuel
  | CallInitPart => InitPart P fuel
  | CallClear => Clear P fuel e
  | CallDisplay img => Display P fuel e img
  | CallSleep => Sleep P fuel
  end.

Fixpoint calls (P : Panel) (fuel : nat) (e : Epd) (cs : list Call) : M unit :=
  match cs with
  | [] => ret tt
  | c :: cs' => call P fuel e c >>> calls P fuel e cs'
  end.

(** ** Panels, buffers and images of the examples *)

(** A panel whose lines never fail and whose busy line reads high. *)
Definition idle : Panel := mkPanel (fun _ => false) (fun _ => High).

(** A panel that is busy for the first three reads. *)
Definition slow : Panel :=
  mkPanel (fun _ => false) (fun n => if (n <? 3)%nat then Low else High).

Definition frameLength : nat := Z.to_nat (widthByte New * heightByte New).

Definition zeroBuffer : list Z := replicate frameLength 0.

(** 16 by 1 at the origin: one black pixel, seven white, eight black. *)
Definition stripe : Img.Image :=
  Img.mkImage (Img.mkRect 0 0 16 1)
    (fun x _ => if x =? 0 then Img.Black
                else if x <? 8 then Img.White else Img.Black).

(** [image.NewGray(image.Rect(8, 0, 16, 1))] painted white: outside its
    bounds [At] returns the zero [color.Gray], which is black. *)
Definition shiftedGray : Img.Image :=
  Img.mkImage (Img.mkRect 8 0 16 1)
    (fun x y => if Img.inside x y (Img.mkRect 8 0 16 1)
                then Img.White else Img.Black).

(** 11 by 2 at the origin, every third pixel of a diagonal black. *)
Definition diagonal : Img.Image :=
  Img.mkImage (Img.mkRect 0 0 11 2)
    (fun x y => if (x + y) mod 3 =? 0 then Img.Black else Img.White).

(** The body of the loops of [Display] for the buffer index [idx]. *)
Definition displayStep (P : Panel) (img : list Z) (idx : Z) : M unit :=
  let* b := index img idx in displayBits P 8 0 (Byte8.not b).

(** The buffer of a [w] by [h] frame when its first [k] bytes are stored
    and the others still hold [PanelSetting]. *)
Definition partialFrame (w h : nat) (img : Img.Image) (k : nat) : list Z :=
  (frameByte (Z.of_nat w) img <$> seqZ 0 (Z.of_nat k))
    ++ replicate (w * h - k) PanelSetting.

(** Events that leave the data/command line and the channel alone. *)
Definition quiet (ev : Event) : bool :=
  match ev with
  | EvOut DC _ | EvTx _ => false
  | _ => true
  end.

(** The events of [InitFast] and [InitPart] on lines that do not fail, the
    busy line reading low [n] times after power-on. *)
Definition initFastEvents (n : nat) : list Event :=
  resetEvents
    ++ commandEvents 0x00 ++ dataEvents 0x1F
    ++ commandEvents 0x50 ++ dataEvents 0x10 ++ dataEvents 0x07
    ++ commandEvents 0x04 ++ [EvSleep 100] ++ idleWaitEvents n
    ++ commandEvents 0x06 ++ dataEvents 0x27 ++ dataEvents 0x27
    ++ dataEvents 0x18 ++ dataEvents 0x17
    ++ commandEvents 0xE0 ++ dataEvents 0x02 ++ dataEvents 0xE5
    ++ dataEvents 0x5A.

Definition initPartEvents (n : nat) : list Event :=
  resetEvents
    ++ commandEvents 0x00 ++ dataEvents 0x1F
    ++ commandEvents 0x04 ++ [EvSleep 100] ++ idleWaitEvents n
    ++ commandEvents 0xE0 ++ dataEvents 0x02
    ++ commandEvents 0xE5 ++ dataEvents 0x6E.

(** ** Further runs and invariants *)

(** The events of [Init] and of [Sleep] on lines that do not fail, the busy
    line reading low [n] times before it reads high. *)
Definition initEvents (n : nat) : list Event :=
  [EvLog "e-paper init"]
    ++ resetEvents
    ++ commandEvents PowerSetting
    ++ dataEvents 0x07 ++ dataEvents 0x07 ++ dataEvents 0x3f
    ++ dataEvents 0x3f
    ++ commandEvents 0x06
    ++ dataEvents 0x17 ++ dataEvents 0x17 ++ dataEvents 0x28
    ++ dataEvents 0x17
    ++ commandEvents 0x04 ++ [EvSleep 100] ++ idleWaitEvents n
    ++ commandEvents 0x00 ++ dataEvents 0x1F
    ++ commandEvents 0x61
    ++ dataEvents 0x03 ++ dataEvents 0x20 ++ dataEvents 0x01
    ++ dataEvents 0xE0
    ++ commandEvents 0x15 ++ dataEvents 0x00
    ++ commandEvents 0x50 ++ dataEvents 0x10 ++ dataEvents 0x07
    ++ commandEvents 0x60 ++ dataEvents 0x22.

Definition sleepEvents (n : nat) : list Event :=
  commandEvents PowerOff ++ idleWaitEvents n
    ++ commandEvents DeepSleep ++ dataEvents 0xA5.

(** The events of the wait on a busy line that stays low, until the fuel
    is spent. *)
Definition stuckWaitEvents (fuel : nat) : list Event :=
  EvLog "e-paper busy" :: concat (replicate fuel [EvRead Low; EvSleep 5]).

(** Every run of [m] only adds events to the log, all of them in [Q]. *)
Definition adds {A : Type} (Q : Event -> Prop) (m : M A) : Prop :=
  forall s : HW,
    exists evs : list Event,
      log (snd (m s)) = rev evs ++ log s /\ Forall Q evs.

(** A run of [m] attempts line and channel operations only as long as they
    succeed: an error it returns is that of the last operation attempted,
    which the panel failed, and no operation before it failed. *)
Definition stopsAtFailure (P : Panel) {A : Type} (m : M A) : Prop :=
  forall (s s' : HW) (r : Res A),
    m s = (r, s') ->
    (ops s <= ops s')%nat
    /\ match r with
       | Err (IoError k) =>
           ops s' = S k /\ (ops s <= k)%nat /\ io_fails P k = true
           /\ forall i : nat, (ops s <= i < k)%nat -> io_fails P i = false
       | _ =>
           forall i : nat, (ops s <= i < ops s')%nat -> io_fails P i = false
       end.

(** An event other than a write to the reset line. *)
Definition sparesReset (ev : Event) : Prop :=
  match ev with
  | EvOut RST _ => False
  | _ => True
  end.

(** An event other than an exchange, or the exchange of one byte among
    [bs]. *)
Definition exchangesOnly (bs : list Z) (ev : Event) : Prop :=
  match ev with
  | EvTx [b] => In b bs
  | EvTx _ => False
  | _ => True
  end.

(** A panel whose lines never fail and whose busy line stays low. *)
Definition stuck : Panel := mkPanel (fun _ => false) (fun _ => Low).

(** A panel whose third line or channel operation fails. *)
Definition thirdFails : Panel :=
  mkPanel (fun n => (n =? 2)%nat) (fun _ => High).

(** [color.Gray16{y}]: an opaque gray of level [y]. *)
Definition gray16 (y : Z) : Img.Color := Img.mkColor y y y 0xffff.

(** Two pixels go out in one data byte: [Epd7in5V2Width / 2] data bytes a
    row.  The data byte [q] of a frame, from the two pixels it carries. *)
Definition pairsPerRow : Z := Epd7in5V2Width / 2.

Definition pixelPair (img : Img.Image) (q : Z) : Z :=
  packNibbles
    (nibbleCode (white img (2 * (q mod pairsPerRow)) (q / pairsPerRow)))
    (nibbleCode (white img (2 * (q mod pairsPerRow) + 1) (q / pairsPerRow))).

Definition pixelPairs (img : Img.Image) : list Z :=
  pixelPair img <$> seqZ 0 (pairsPerRow * Epd7in5V2Height).

(** The pixel [(i, j)] is one of the panel. *)
Definition onPanel (i j : Z) : Prop :=
  0 <= i < Epd7in5V2Width /\ 0 <= j < Epd7in5V2Height.

(** An image without pixels. *)
Definition blank : Img.Image :=
  Img.mkImage (Img.mkRect 0 0 0 0) (fun _ _ => Img.Black).

(** A black image of the size of the panel. *)
Definition ink : Img.Image :=
  Img.mkImage (Img.mkRect 0 0 800 480) (fun _ _ => Img.Black).

(** 1000 by 600: white where the panel is, black beyond. *)
Definition poster : Img.Image :=
  Img.mkImage (Img.mkRect 0 0 1000 600)
    (fun x y => if (x <? 800) && (y <? 480) then Img.White else Img.Black).

(** The size of the panel, one gray level. *)
Definition shade (y : Z) : Img.Image :=
  Img.mkImage (Img.mkRect 0 0 800 480) (fun _ _ => gray16 y).

(** ** The constructor

    [New] up to the handle it returns: the calls it makes on the host
    ([host.Init], [gpioreg.ByName], the pins' [Out] and [In],
    [spireg.Open], the port's [Connect] and [Close]) with the outcome the
    host gives each of them, and the steps made, in order. *)

Module Boot.

(** What [gpioreg.ByName] returns when it is not nil: [gpio.INVALID] or a
    line of the host. *)
Inductive PinRef : Type :=
| INVALID
| Line (id : nat).

(** An error made by [errors.New], or one a call on the host returned. *)
Inductive GoError : Type :=
| ErrorsNew (msg : string)
| HostError (code : nat).

Record Host : Type := mkHost {
  hostInit : option GoError;              (* the error of host.Init() *)
  byName : string -> option PinRef;       (* gpioreg.ByName; None is nil *)
  pinOut : PinRef -> option GoError;      (* the error of p.Out(gpio.Low) *)
  pinIn : PinRef -> option GoError;       (* of p.In(PullDown, RisingEdge) *)
  spiOpen : option GoError;               (* of spireg.Open("") *)
  portConnect : option GoError;           (* of port.Connect(...) *)
  portClose : option GoError              (* of port.Close() *)
}.

Inductive Step : Type :=
| HostInit
| ByName (name : string)
| Out (p : PinRef) (l : Level)
| In (p : PinRef)                 (* gpio.PullDown, gpio.RisingEdge *)
| Open
| Connect (hz : Z) (mode : Z) (bits : Z)
| Close.

(** The [Epd] struct: the four lines, the connection (there is one port,
    so it has no name here) and the geometry. *)
Record Handle : Type := mkHandle {
  dc : PinRef;
  cs : PinRef;
  rst : PinRef;
  busy : PinRef;
  geometry : Epd
}.

(** A result or an error, and the steps made. *)
Definition B (A : Type) : Type := (A + GoError) * list Step.

Definition pure {A : Type} (a : A) : B A := (inl a, []).

Definition fail {A : Type} (e : GoError) : B A := (inr e, []).

Definition andThen {A C : Type} (m : B A) (f : A -> B C) : B C :=
  match m with
  | (inl a, steps) => let (r, steps') := f a in (r, steps ++ steps')
  | (inr e, steps) => (inr e, steps)
  end.

(** A call that returns only an error. *)
Definition attempt (st : Step) (outcome : option GoError) : B unit :=
  match outcome with
  | Some e => (inr e, [st])
  | None => (inl tt, [st])
  end.

(** [gpioreg.ByName(name)], with the error for nil. *)
Definition find (H : Host) (name : string) (missing : string) : B PinRef :=
  match byName H name with
  | None => (inr (ErrorsNew missing), [ByName name])
  | Some p => (inl p, [ByName name])
  end.

Definition megaHertz : Z := 1000000.

Definition New (H : Host) (dcPin csPin rstPin busyPin : string) : B Handle :=
  andThen (attempt HostInit (hostInit H)) (fun _ =>
  andThen (find H dcPin "spi: failed to find DC pin") (fun dc =>
  andThen
    (match dc with
     | INVALID =>
         fail (ErrorsNew
           "epd: use nil for dc to use 3-wire mode, do not use gpio.INVALID")
     | Line _ => pure tt
     end) (fun _ =>
  andThen (attempt (Out dc Low) (pinOut H dc)) (fun _ =>
  andThen (find H csPin "spi: failed to find CS pin") (fun cs =>
  andThen (attempt (Out cs Low) (pinOut H cs)) (fun _ =>
  andThen (find H rstPin "spi: failed to find RST pin") (fun rst =>
  andThen (attempt (Out rst Low) (pinOut H rst)) (fun _ =>
  andThen (find H busyPin "spi: failed to find BUSY pin") (fun busy =>
  andThen (attempt (In busy) (pinIn H busy)) (fun _ =>
  andThen (attempt Open (spiOpen H)) (fun _ =>
  andThen
    (match portConnect H with
     | Some err =>
         match portClose H with
         | Some err' => (inr err', [Connect (5 * megaHertz) 0 8; Close])
         | None => (inr err, [Connect (5 * megaHertz) 0 8; Close])
         end
     | None => (inl tt, [Connect (5 * megaHertz) 0 8])
     end) (fun _ =>
  pure (mkHandle dc cs rst busy
          (mkEpd (Epd7in5V2Width / 8) Epd7in5V2Height)))))))))))))).

(** A host on which every call succeeds and every name is a line. *)
Definition sound : Host :=
  mkHost None (fun name => Some (Line (String.length name)))
    (fun _ => None) (fun _ => None) None None None.

(** A host whose port cannot be connected and cannot be closed either. *)
Definition deaf : Host :=
  mkHost None (fun name => Some (Line (String.length name)))
    (fun _ => None) (fun _ => None) None
    (Some (HostError 1)) (Some (HostError 2)).

End Boot.

(** * Properties *)

(** ** The model on small inputs *)

Example PaletteIndex_black :
  Img.PaletteIndex [Img.Black; Img.White] Img.Black = 0.
Proof. reflexivity. Qed.

Example PaletteIndex_white :
  Img.PaletteIndex [Img.Black; Img.White] Img.White = 1.
Proof. reflexivity. Qed.

Example PaletteIndex_transparent :
  Img.PaletteIndex [Img.Black; Img.White] Img.Transparent = 0.
Proof. reflexivity. Qed.

Example PaletteIndex_light_gray :
  Img.PaletteIndex [Img.Black; Img.White]
    (Img.mkColor 0x8000 0x8000 0x8000 0xffff) = 1.
Proof. reflexivity. Qed.

(** A 24 by 3 panel: three bytes a row, the image in the upper left. *)
Example convertOn_diagonal :
  convertOn 24 3 (mkEpd 3 3) diagonal
  = Some [0x6D; 0xBF; 0xFF; 0xDB; 0x7F; 0xFF; 0xFF; 0xFF; 0xFF].
Proof. reflexivity. Qed.

(** A buffer of two rows for loops over three: the store runs out of
    range. *)
Example convertOn_short_buffer :
  convertOn 24 3 (mkEpd 3 2) diagonal = None.
Proof. reflexivity. Qed.

Example Display_two_bytes :
  exists s' : HW,
    Display idle 1 (mkEpd 2 1) [0xA5; 0xFF] hw0 = (Ok tt, s')
    /\ wire (trace s') =
         [Command 0x10; Data 0x30; Data 0x30; Data 0x03; Data 0x03;
          Data 0x33; Data 0x33; Data 0x33; Data 0x33; Command 0x12].
Proof. eexists. split; reflexivity. Qed.

Example Sleep_wire :
  wire (trace (snd (Sleep slow 4 hw0)))
  = [Command 0x02; Command 0x07; Data 0xA5].
Proof. reflexivity. Qed.

(** A channel that fails on the third operation: the command is not
    exchanged and chip-select stays low. *)
Example sendCommand_channel_fails :
  sendCommand (mkPanel (fun n => (n =? 2)%nat) (fun _ => High)) 0x12 hw0
  = (Err (IoError 2), mkHW [EvOut CS Low; EvOut DC Low] 3 0).
Proof. reflexivity. Qed.

(** ** The monad *)

Lemma bind_ok {A B : Type} (m : M A) (f : A -> M B) (s s' : HW) (a : A) :
  m s = (Ok a, s') -> bind m f s = f a s'.
Proof. intros H. unfold bind. now rewrite H. Qed.

Lemma trace_record (ev : Event) (s : HW) :
  trace (record ev s) = trace s ++ [ev].
Proof. reflexivity. Qed.

Lemma trace_log (s s' : HW) (evs : list Event) :
  log s' = rev evs ++ log s -> trace s' = trace s ++ evs.
Proof.
  intros H. unfold trace. rewrite H, rev_app_distr, rev_involutive.
  reflexivity.
Qed.

Lemma yields_run {A : Type} (m : M A) (s : HW) (r : Res A)
    (evs : list Event) (dp : nat) :
  yields m s r evs dp ->
  exists s' : HW, m s = (r, s') /\ trace s' = trace s ++ evs.
Proof.
  intros (s' & Hm & Hlog & _). exists s'. split; [exact Hm|].
  now apply trace_log.
Qed.

Lemma yields_ret {A : Type} (a : A) (s : HW) : yields (ret a) s (Ok a) [] 0.
Proof. exists s. repeat split. simpl. lia. Qed.

Lemma yields_bind {A B : Type} (m : M A) (f : A -> M B) (s : HW) (a : A)
    (r : Res B) (e1 e2 : list Event) (p1 p2 : nat) :
  yields m s (Ok a) e1 p1 ->
  (forall s1 : HW, polls s1 = (polls s + p1)%nat -> yields (f a) s1 r e2 p2) ->
  yields (bind m f) s r (e1 ++ e2) (p1 + p2).
Proof.
  intros (s1 & Hm & Hl1 & Hp1) Hf.
  destruct (Hf s1 Hp1) as (s2 & Hf2 & Hl2 & Hp2).
  exists s2. rewrite (bind_ok _ _ _ _ _ Hm). split; [exact Hf2|]. split.
  - rewrite Hl2, Hl1, rev_app_distr, app_assoc. reflexivity.
  - lia.
Qed.

Lemma yields_stop {A B : Type} (m : M A) (f : A -> M B) (s : HW)
    (evs : list Event) (dp : nat) :
  yields m s Panic evs dp -> yields (bind m f) s Panic evs dp.
Proof.
  intros (s1 & Hm & Hl & Hp). exists s1. unfold bind. rewrite Hm. auto.
Qed.

Lemma yields_eq {A : Type} (m : M A) (s : HW) (r : Res A)
    (evs evs' : list Event) (dp dp' : nat) :
  yields m s r evs dp -> evs = evs' -> dp = dp' -> yields m s r evs' dp'.
Proof. intros H <- <-. exact H. Qed.

Lemma yields_ext {A : Type} (m m' : M A) (s : HW) (r : Res A)
    (evs : list Event) (dp : nat) :
  (forall t : HW, m t = m' t) -> yields m s r evs dp -> yields m' s r evs dp.
Proof. intros E (s' & H & Hl). exists s'. rewrite <- E. auto. Qed.

(** ** The transport *)

Section Transport.

Variable P : Panel.

Lemma io_ok (ev : Event) (s : HW) :
  io_fails P (ops s) = false -> io P ev s = (Ok tt, record ev (attempt s)).
Proof. intros H. unfold io. now rewrite H. Qed.

Lemma io_failed (ev : Event) (s : HW) :
  io_fails P (ops s) = true ->
  io P ev s = (Err (IoError (ops s)), attempt s).
Proof. intros H. unfold io. now rewrite H. Qed.

(** The four operations of a transfer, on lines that do not fail. *)
Lemma transfer_ok (dc : Level) (b : Z) (s : HW) :
  (forall k : nat, (k < 4)%nat -> io_fails P (ops s + k) = false) ->
  exists s' : HW,
    (pinOut P DC dc >>> pinOut P CS Low >>> connTx P [b]
       >>> pinOut P CS High) s = (Ok tt, s')
    /\ log s' = rev [EvOut DC dc; EvOut CS Low; EvTx [b]; EvOut CS High]
                  ++ log s
    /\ polls s' = polls s.
Proof.
  intros H.
  assert (H0 := H 0%nat ltac:(lia)). assert (H1 := H 1%nat ltac:(lia)).
  assert (H2 := H 2%nat ltac:(lia)). assert (H3 := H 3%nat ltac:(lia)).
  rewrite Nat.add_0_r in H0.
  replace (ops s + 1)%nat with (S (ops s)) in H1 by lia.
  replace (ops s + 2)%nat with (S (S (ops s))) in H2 by lia.
  replace (ops s + 3)%nat with (S (S (S (ops s)))) in H3 by lia.
  eexists. unfold pinOut, connTx, bind, io. simpl.
  rewrite H0. simpl. rewrite H1. simpl. rewrite H2. simpl. rewrite H3.
  split; [reflexivity|]. split; reflexivity.
Qed.

(** A failing first operation ends the transfer with its error and
    leaves no event. *)
Lemma sendCommand_aborts (b : Z) (s : HW) :
  io_fails P (ops s) = true ->
  sendCommand P b s = (Err (IoError (ops s)), attempt s).
Proof.
  intros H. unfold sendCommand, bind, pinOut. now rewrite (io_failed _ _ H).
Qed.

(** While the busy line reads low the polling loop does not return: it
    uses up any fuel. *)
Lemma pollBusy_hangs (fuel : nat) :
  (forall n : nat, busy_level P n = Low) ->
  forall s : HW, fst (pollBusy P fuel s) = Hang.
Proof.
  intros Hlow. induction fuel as [|fuel IH]; intros s; [reflexivity|].
  cbn [pollBusy]. unfold bind at 1. unfold busyRead. rewrite Hlow.
  unfold bind, timeSleep. apply IH.
Qed.

End Transport.

(** C9: on lines and a channel that do not fail, [sendCommand] drives the
    data/command line low and [sendData] drives it high; each then drives
    chip-select low, exchanges the one byte with no read buffer, and
    drives chip-select high, in that order, and nothing else. *)
Theorem transport_framing (P : Panel) (b : Z) (s : HW) :
  (forall k : nat, (k < 4)%nat -> io_fails P (ops s + k) = false) ->
  (exists s' : HW,
     sendCommand P b s = (Ok tt, s')
     /\ trace s' = trace s
          ++ [EvOut DC Low; EvOut CS Low; EvTx [b]; EvOut CS High])
  /\ (exists s' : HW,
        sendData P b s = (Ok tt, s')
        /\ trace s' = trace s
             ++ [EvOut DC High; EvOut CS Low; EvTx [b]; EvOut CS High]).
Proof.
  intros H. split.
  - destruct (transfer_ok P Low b s H) as (s' & Hs & Hl & _).
    exists s'. split; [exact Hs|]. now apply trace_log.
  - destruct (transfer_ok P High b s H) as (s' & Hs & Hl & _).
    exists s'. split; [exact Hs|]. now apply trace_log.
Qed.

Lemma transport_framing_witness :
  (exists s' : HW,
     sendCommand idle 0x12 hw0 = (Ok tt, s')
     /\ trace s' = trace hw0
          ++ [EvOut DC Low; EvOut CS Low; EvTx [0x12]; EvOut CS High])
  /\ (exists s' : HW,
        sendData idle 0x12 hw0 = (Ok tt, s')
        /\ trace s' = trace hw0
             ++ [EvOut DC High; EvOut CS Low; EvTx [0x12]; EvOut CS High]).
Proof. apply (transport_framing idle 0x12 hw0). intros k _. reflexivity. Defined.

(** ** Runs on lines that do not fail *)

Lemma idleAfter_polls (P : Panel) (s s' : HW) (n : nat) :
  polls s' = polls s -> idleAfter P s n -> idleAfter P s' n.
Proof. unfold idleAfter. intros ->. auto. Qed.

Lemma concat_replicate_S {A : Type} (n : nat) (l : list A) :
  concat (replicate (S n) l) = l ++ concat (replicate n l).
Proof. reflexivity. Qed.

Lemma concat_replicate_replicate {A : Type} (n m : nat) (x : A) :
  concat (replicate n (replicate m x)) = replicate (n * m) x.
Proof.
  induction n as [|n IH]; [reflexivity|].
  rewrite concat_replicate_S, IH. simpl. now rewrite replicate_add.
Qed.

Lemma concat_replicate_singleton {A : Type} (n : nat) (x : A) :
  concat (replicate n [x]) = replicate n x.
Proof.
  induction n as [|n IH]; [reflexivity|].
  rewrite concat_replicate_S, IH. reflexivity.
Qed.

Lemma dataRun_app (l1 l2 : list Z) :
  dataRun (l1 ++ l2) = dataRun l1 ++ dataRun l2.
Proof. unfold dataRun. now rewrite map_app, concat_app. Qed.

Lemma dataRun_concat_replicate (n : nat) (ds : list Z) :
  dataRun (concat (replicate n ds)) = concat (replicate n (dataRun ds)).
Proof.
  induction n as [|n IH]; [reflexivity|].
  rewrite !concat_replicate_S, dataRun_app, IH. reflexivity.
Qed.

Section Reliable.

Variable P : Panel.
Hypothesis Hrel : reliable P.

Lemma yields_io (ev : Event) (s : HW) : yields (io P ev) s (Ok tt) [ev] 0.
Proof.
  exists (record ev (attempt s)). rewrite io_ok by apply Hrel.
  repeat split. simpl. lia.
Qed.

Lemma yields_pinOut (p : Pin) (l : Level) (s : HW) :
  yields (pinOut P p l) s (Ok tt) [EvOut p l] 0.
Proof. apply yields_io. Qed.

Lemma yields_timeSleep (ms : Z) (s : HW) :
  yields (timeSleep ms) s (Ok tt) [EvSleep ms] 0.
Proof. exists (record (EvSleep ms) s). repeat split. simpl. lia. Qed.

Lemma yields_logPrintln (msg : string) (s : HW) :
  yields (logPrintln msg) s (Ok tt) [EvLog msg] 0.
Proof. exists (record (EvLog msg) s). repeat split. simpl. lia. Qed.

Lemma yields_sendCommand (b : Z) (s : HW) :
  yields (sendCommand P b) s (Ok tt) (commandEvents b) 0.
Proof.
  destruct (transfer_ok P Low b s) as (s' & Hs & Hl & Hp).
  - intros k _. apply Hrel.
  - exists s'. repeat split; [exact Hs|exact Hl|lia].
Qed.

Lemma yields_sendData (b : Z) (s : HW) :
  yields (sendData P b) s (Ok tt) (dataEvents b) 0.
Proof.
  destruct (transfer_ok P High b s) as (s' & Hs & Hl & Hp).
  - intros k _. apply Hrel.
  - exists s'. repeat split; [exact Hs|exact Hl|lia].
Qed.

(** The polling loop returns once the line reads high, given the fuel
    for the reads before. *)
Lemma yields_pollBusy (fuel : nat) :
  forall (n : nat) (s : HW),
    idleAfter P s n -> (n < fuel)%nat ->
    yields (pollBusy P fuel) s (Ok tt) (pollEvents n) (S n).
Proof.
  induction fuel as [|fuel IH]; intros n s [Hlow Hhigh] Hn; [lia|].
  destruct n as [|n].
  - rewrite Nat.add_0_r in Hhigh.
    exists (record (EvRead High) (polled s)).
    cbn [pollBusy]. unfold bind, busyRead. rewrite Hhigh.
    repeat split. simpl. lia.
  - assert (H0 : busy_level P (polls s) = Low).
    { rewrite <- (Nat.add_0_r (polls s)). apply Hlow. lia. }
    destruct (IH n (record (EvSleep 5) (record (EvRead Low) (polled s))))
      as (s' & Hs & Hl & Hp).
    + split.
      * intros k Hk. simpl. replace (S (polls s + k)) with (polls s + S k)%nat
          by lia. apply Hlow. lia.
      * simpl. replace (S (polls s + n)) with (polls s + S n)%nat by lia.
        exact Hhigh.
    + lia.
    + exists s'. cbn [pollBusy]. unfold bind at 1. unfold busyRead.
      rewrite H0. unfold bind, timeSleep. split; [exact Hs|]. split.
      * rewrite Hl. unfold pollEvents. rewrite concat_replicate_S.
        simpl. rewrite !rev_app_distr. simpl. rewrite <- !app_assoc.
        reflexivity.
      * rewrite Hp. simpl. lia.
Qed.

Lemma yields_waitUntilIdle (fuel n : nat) (s : HW) :
  idleAfter P s n -> (n < fuel)%nat ->
  yields (waitUntilIdle P fuel) s (Ok tt) (idleWaitEvents n) (S n).
Proof.
  intros Hidle Hn. unfold waitUntilIdle.
  eapply yields_eq.
  - eapply yields_bind; [apply yields_logPrintln|intros s1 H1].
    eapply yields_bind;
      [apply (yields_pollBusy fuel n); [|exact Hn]|intros s2 H2].
    { eapply idleAfter_polls; [|exact Hidle]. lia. }
    eapply yields_bind; [apply yields_timeSleep|intros s3 H3].
    apply yields_logPrintln.
  - reflexivity.
  - lia.
Qed.

Lemma yields_turnOnDisplay (fuel n : nat) (s : HW) :
  idleAfter P s n -> (n < fuel)%nat ->
  yields (turnOnDisplay P fuel) s (Ok tt) (refreshEvents n) (S n).
Proof.
  intros Hidle Hn. unfold turnOnDisplay.
  eapply yields_eq.
  - eapply yields_bind; [apply yields_sendCommand|intros s1 H1].
    eapply yields_bind; [apply yields_timeSleep|intros s2 H2].
    apply (yields_waitUntilIdle fuel n); [|exact Hn].
    eapply idleAfter_polls; [|exact Hidle]. lia.
  - reflexivity.
  - lia.
Qed.

Lemma yields_Reset (s : HW) : yields (Reset P) s (Ok tt) resetEvents 0.
Proof.
  unfold Reset. eapply yields_eq.
  - eapply yields_bind; [apply yields_pinOut|intros s1 H1].
    eapply yields_bind; [apply yields_timeSleep|intros s2 H2].
    eapply yields_bind; [apply yields_pinOut|intros s3 H3].
    eapply yields_bind; [apply yields_timeSleep|intros s4 H4].
    eapply yields_bind; [apply yields_pinOut|intros s5 H5].
    apply yields_timeSleep.
  - reflexivity.
  - reflexivity.
Qed.

(** A loop whose trips add known events and never read the busy line. *)
Lemma yields_forFrom (body : Z -> M unit) (evs : Z -> list Event) :
  (forall (i : Z) (s : HW), yields (body i) s (Ok tt) (evs i) 0) ->
  forall (count : nat) (i : Z) (s : HW),
    yields (forFrom count i body) s (Ok tt)
      (concat (map evs (seqZ i (Z.of_nat count)))) 0.
Proof.
  intros Hbody. induction count as [|count IH]; intros i s.
  - apply yields_ret.
  - rewrite seqZ_cons by lia.
    replace (Z.pred (Z.of_nat (S count))) with (Z.of_nat count) by lia.
    cbn [forFrom map concat].
    eapply yields_eq.
    + eapply yields_bind; [apply Hbody|intros s1 _]. apply (IH (i + 1)).
    + reflexivity.
    + reflexivity.
Qed.

(** A loop that sends the same data bytes on every trip. *)
Lemma yields_forUpTo_data (body : Z -> M unit) (ds : list Z) (n : Z) :
  (forall (i : Z) (s : HW), yields (body i) s (Ok tt) (dataRun ds) 0) ->
  forall s : HW,
    yields (forUpTo n body) s (Ok tt)
      (dataRun (concat (replicate (Z.to_nat n) ds))) 0.
Proof.
  intros Hbody s. unfold forUpTo.
  eapply yields_eq; [apply (yields_forFrom body _ Hbody)| |reflexivity].
  rewrite dataRun_concat_replicate.
  generalize 0 at 1. induction (Z.to_nat n) as [|c IH]; intros i.
  - reflexivity.
  - rewrite seqZ_cons by lia.
    replace (Z.pred (Z.of_nat (S c))) with (Z.of_nat c) by lia.
    cbn [map concat]. rewrite concat_replicate_S, IH. reflexivity.
Qed.

Lemma yields_Clear (fuel n : nat) (e : Epd) (s : HW) :
  0 <= widthByte e -> 0 <= heightByte e ->
  idleAfter P s n -> (n < fuel)%nat ->
  yields (Clear P fuel e) s (Ok tt)
    (commandEvents DataStartTransmission1
       ++ dataRun (replicate (Z.to_nat (4 * (widthByte e * heightByte e)))
                     0x33)
       ++ refreshEvents n)
    (S n).
Proof.
  intros Hw Hh Hidle Hn. unfold Clear. eapply yields_eq.
  - eapply yields_bind; [apply yields_sendCommand|intros s1 H1].
    eapply yields_bind.
    + apply yields_forUpTo_data. intros j t.
      apply yields_forUpTo_data. intros i t'.
      apply (yields_forUpTo_data _ [0x33]). intros k t''.
      eapply yields_eq; [apply yields_sendData|reflexivity|reflexivity].
    + intros s2 H2. apply (yields_turnOnDisplay fuel n); [|exact Hn].
      eapply idleAfter_polls; [|exact Hidle]. lia.
  - rewrite concat_replicate_singleton, !concat_replicate_replicate.
    rewrite <- !Z2Nat.inj_mul by lia.
    replace (heightByte e * (widthByte e * 4))
      with (4 * (widthByte e * heightByte e)) by lia.
    reflexivity.
  - lia.
Qed.

End Reliable.

(** C8: on lines that do not fail and a panel that comes idle, [Clear]
    sends the data-start command, then 4 x bytes-per-row x rows data bytes
    all equal to 0x33, then the display-refresh command, sleeps 100 ms and
    waits on the busy line; it returns no error. *)
Theorem Clear_trace (P : Panel) (fuel n : nat) (s : HW) :
  reliable P -> idleAfter P s n -> (n < fuel)%nat ->
  exists s' : HW,
    Clear P fuel New s = (Ok tt, s')
    /\ trace s' =
         trace s
           ++ commandEvents DataStartTransmission1
           ++ dataRun (replicate
                         (Z.to_nat (4 * (widthByte New * heightByte New)))
                         0x33)
           ++ commandEvents DisplayRefresh
           ++ [EvSleep 100]
           ++ idleWaitEvents n.
Proof.
  intros Hrel Hidle Hn.
  assert (Hw : 0 <= widthByte New) by (vm_compute; discriminate).
  assert (Hh : 0 <= heightByte New) by (vm_compute; discriminate).
  destruct (yields_run _ _ _ _ _
              (yields_Clear P Hrel fuel n New s Hw Hh Hidle Hn))
    as (s' & Hs & Ht).
  exists s'. split; [exact Hs|]. exact Ht.
Qed.

Lemma slow_idleAfter (s : HW) : polls s = 0%nat -> idleAfter slow s 3.
Proof.
  intros Hp. split.
  - intros k Hk. rewrite Hp.
    destruct k as [|[|[|k]]]; [reflexivity|reflexivity|reflexivity|lia].
  - rewrite Hp. reflexivity.
Qed.

Lemma Clear_trace_witness :
  exists s' : HW,
    Clear slow 4 New hw0 = (Ok tt, s')
    /\ trace s' =
         trace hw0
           ++ commandEvents DataStartTransmission1
           ++ dataRun (replicate
                         (Z.to_nat (4 * (widthByte New * heightByte New)))
                         0x33)
           ++ commandEvents DisplayRefresh
           ++ [EvSleep 100]
           ++ idleWaitEvents 3.
Proof.
  apply (Clear_trace slow 4 3 hw0).
  - intros k. reflexivity.
  - apply slow_idleAfter. reflexivity.
  - lia.
Defined.

(** ** The initialisation sequences *)

Lemma exchanged_quiet (evs rest : list Event) (dc : Level) :
  forallb quiet evs = true -> exchanged dc (evs ++ rest) = exchanged dc rest.
Proof.
  induction evs as [|ev evs IH]; intros H; [reflexivity|].
  simpl in H. apply andb_prop in H as [Hev Hevs].
  destruct ev as [[] l|w|l|ms|msg]; simpl in *;
    try discriminate; now apply IH.
Qed.

Lemma quiet_idleWaitEvents (n : nat) : forallb quiet (idleWaitEvents n) = true.
Proof.
  unfold idleWaitEvents, pollEvents. simpl.
  rewrite !forallb_app. simpl.
  induction n as [|n IH]; [reflexivity|].
  rewrite concat_replicate_S, forallb_app. simpl. exact IH.
Qed.

Lemma wire_initFastEvents (n : nat) :
  wire (initFastEvents n) =
    [Command 0x00; Data 0x1F; Command 0x50; Data 0x10; Data 0x07;
     Command 0x04; Command 0x06; Data 0x27; Data 0x27; Data 0x18; Data 0x17;
     Command 0xE0; Data 0x02; Data 0xE5; Data 0x5A].
Proof.
  unfold wire, initFastEvents. cbn -[idleWaitEvents].
  rewrite (exchanged_quiet _ _ _ (quiet_idleWaitEvents n)). reflexivity.
Qed.

Lemma wire_initPartEvents (n : nat) :
  wire (initPartEvents n) =
    [Command 0x00; Data 0x1F; Command 0x04;
     Command 0xE0; Data 0x02; Command 0xE5; Data 0x6E].
Proof.
  unfold wire, initPartEvents. cbn -[idleWaitEvents].
  rewrite (exchanged_quiet _ _ _ (quiet_idleWaitEvents n)). reflexivity.
Qed.

Section Sequences.

Variable P : Panel.
Hypothesis Hrel : reliable P.

Ltac step :=
  eapply yields_bind;
  [ first [ apply (yields_sendCommand P Hrel)
          | apply (yields_sendData P Hrel)
          | apply (yields_Reset P Hrel)
          | apply yields_timeSleep
          | apply yields_logPrintln ]
  | intros ? ? ].

Ltac wait Hidle Hn :=
  eapply yields_bind;
  [ eapply yields_waitUntilIdle;
    [ eapply idleAfter_polls; [|exact Hidle]; lia | exact Hn ]
  | intros ? ? ].

Lemma yields_InitFast (fuel n : nat) (s : HW) :
  idleAfter P s n -> (n < fuel)%nat ->
  yields (InitFast P fuel) s (Ok tt) (initFastEvents n) (S n).
Proof.
  intros Hidle Hn. unfold InitFast. eapply yields_eq.
  - do 8 step. wait Hidle Hn. do 8 step. apply (yields_sendData P Hrel).
  - reflexivity.
  - lia.
Qed.

Lemma yields_InitPart (fuel n : nat) (s : HW) :
  idleAfter P s n -> (n < fuel)%nat ->
  yields (InitPart P fuel) s (Ok tt) (initPartEvents n) (S n).
Proof.
  intros Hidle Hn. unfold InitPart. eapply yields_eq.
  - do 5 step. wait Hidle Hn. do 3 step. apply (yields_sendData P Hrel).
  - reflexivity.
  - lia.
Qed.

End Sequences.

(** C5: on lines that do not fail and a panel that comes idle, [InitPart]
    ends with the command 0xE0, its data byte 0x02, the command 0xE5 and its
    data byte 0x6E, but [InitFast] ends with the command 0xE0 followed by
    three data bytes 0x02, 0xE5, 0x5A: it sends 0xE5 with the data/command
    line high. *)
Theorem InitFast_sends_E5_as_data (P : Panel) (fuel n : nat) (s : HW) :
  reliable P -> idleAfter P s n -> (n < fuel)%nat ->
  (exists (s' : HW) (evs : list Event),
     InitFast P fuel s = (Ok tt, s')
     /\ trace s' = trace s ++ evs
     /\ wire evs =
          [Command 0x00; Data 0x1F; Command 0x50; Data 0x10; Data 0x07;
           Command 0x04; Command 0x06; Data 0x27; Data 0x27; Data 0x18;
           Data 0x17; Command 0xE0; Data 0x02; Data 0xE5; Data 0x5A])
  /\ (exists (s' : HW) (evs : list Event),
        InitPart P fuel s = (Ok tt, s')
        /\ trace s' = trace s ++ evs
        /\ wire evs =
             [Command 0x00; Data 0x1F; Command 0x04;
              Command 0xE0; Data 0x02; Command 0xE5; Data 0x6E]).
Proof.
  intros Hrel Hidle Hn. split.
  - destruct (yields_run _ _ _ _ _ (yields_InitFast P Hrel fuel n s Hidle Hn))
      as (s' & Hs & Ht).
    exists s', (initFastEvents n). repeat split; [exact Hs|exact Ht|].
    apply wire_initFastEvents.
  - destruct (yields_run _ _ _ _ _ (yields_InitPart P Hrel fuel n s Hidle Hn))
      as (s' & Hs & Ht).
    exists s', (initPartEvents n). repeat split; [exact Hs|exact Ht|].
    apply wire_initPartEvents.
Qed.

Lemma InitFast_sends_E5_as_data_witness :
  (exists (s' : HW) (evs : list Event),
     InitFast slow 4 hw0 = (Ok tt, s')
     /\ trace s' = trace hw0 ++ evs
     /\ wire evs =
          [Command 0x00; Data 0x1F; Command 0x50; Data 0x10; Data 0x07;
           Command 0x04; Command 0x06; Data 0x27; Data 0x27; Data 0x18;
           Data 0x17; Command 0xE0; Data 0x02; Data 0xE5; Data 0x5A])
  /\ (exists (s' : HW) (evs : list Event),
        InitPart slow 4 hw0 = (Ok tt, s')
        /\ trace s' = trace hw0 ++ evs
        /\ wire evs =
             [Command 0x00; Data 0x1F; Command 0x04;
              Command 0xE0; Data 0x02; Command 0xE5; Data 0x6E]).
Proof.
  apply (InitFast_sends_E5_as_data slow 4 3 hw0).
  - intros k. reflexivity.
  - apply slow_idleAfter. reflexivity.
  - lia.
Defined.

(** ** Loops *)

Lemma bind_assoc {A B C : Type} (m : M A) (f : A -> M B) (g : B -> M C)
    (s : HW) :
  bind (bind m f) g s = bind m (fun a => bind (f a) g) s.
Proof. unfold bind. destruct (m s) as [[a| | |] s1]; reflexivity. Qed.

Lemma bind_ext {A B : Type} (m m' : M A) (f f' : A -> M B) (s : HW) :
  (forall t : HW, m t = m' t) -> (forall (a : A) (t : HW), f a t = f' a t) ->
  bind m f s = bind m' f' s.
Proof.
  intros Hm Hf. unfold bind. rewrite Hm.
  destruct (m' s) as [[a| | |] s1]; auto.
Qed.

Lemma forFrom_app (body : Z -> M unit) (n m : nat) :
  forall (i : Z) (s : HW),
    forFrom (n + m) i body s
    = (forFrom n i body >>> forFrom m (i + Z.of_nat n) body) s.
Proof.
  induction n as [|n IH]; intros i s.
  - simpl. unfold bind, ret. now rewrite Z.add_0_r.
  - cbn [forFrom Nat.add]. rewrite bind_assoc. apply bind_ext; [reflexivity|].
    intros _ t. rewrite IH. apply bind_ext; [reflexivity|].
    intros _ t'. f_equal. lia.
Qed.

Lemma forFrom_shift (body : Z -> M unit) (off : Z) (n : nat) :
  forall (i : Z) (s : HW),
    forFrom n i (fun x => body (x + off)) s = forFrom n (i + off) body s.
Proof.
  induction n as [|n IH]; intros i s; [reflexivity|].
  cbn [forFrom]. apply bind_ext; [reflexivity|].
  intros _ t. rewrite IH. f_equal. lia.
Qed.

(** Two nested loops over the rows and the bytes of a row visit the
    indices [i + j * w] in increasing order. *)
Lemma forFrom_rows (step : Z -> M unit) (w : nat) (h : nat) :
  forall (j : Z) (s : HW),
    forFrom h j (fun j' => forFrom w 0 (fun i => step (i + j' * Z.of_nat w))) s
    = forFrom (h * w) (j * Z.of_nat w) step s.
Proof.
  induction h as [|h IH]; intros j s; [reflexivity|].
  cbn [forFrom Nat.mul]. rewrite forFrom_app. apply bind_ext.
  - intros t. rewrite forFrom_shift. reflexivity.
  - intros _ t. rewrite IH. f_equal. lia.
Qed.

(** ** [Display] *)

Lemma expandBits_length (d : Z) : length (expandBits 8 0 d) = 4%nat.
Proof. reflexivity. Qed.

Lemma expandByte_length (b : Z) : length (expandByte b) = 4%nat.
Proof. reflexivity. Qed.

Lemma flat_map_expandByte_length (l : list Z) :
  length (flat_map expandByte l) = (4 * length l)%nat.
Proof.
  induction l as [|b l IH]; [reflexivity|].
  cbn [flat_map]. rewrite length_app, expandByte_length, IH. simpl. lia.
Qed.

Lemma dataRun_flat_map (f : Z -> list Z) (l : list Z) :
  dataRun (flat_map f l) = concat (map (fun b => dataRun (f b)) l).
Proof.
  induction l as [|b l IH]; [reflexivity|].
  cbn [flat_map map concat]. rewrite dataRun_app, IH. reflexivity.
Qed.

Section DisplayRuns.

Variable P : Panel.
Hypothesis Hrel : reliable P.

Lemma yields_displayBits (trips : nat) :
  forall (k d : Z) (s : HW),
    8 <= k + 2 * Z.of_nat trips ->
    yields (displayBits P trips k d) s (Ok tt)
      (dataRun (expandBits trips k d)) 0.
Proof.
  induction trips as [|trips IH]; intros k d s Hk.
  - cbn [displayBits expandBits].
    replace (k <? 8) with false by (symmetry; apply Z.ltb_ge; lia).
    apply yields_ret.
  - cbn [displayBits expandBits]. destruct (k <? 8).
    + eapply yields_eq.
      * eapply yields_bind; [apply (yields_sendData P Hrel)|intros s1 _].
        apply IH. lia.
      * reflexivity.
      * reflexivity.
    + apply yields_ret.
Qed.

Lemma yields_step_ok (img : list Z) (i : nat) (b : Z) (s : HW) :
  img !! i = Some b ->
  yields (displayStep P img (Z.of_nat i)) s (Ok tt) (dataRun (expandByte b)) 0.
Proof.
  intros Hb. unfold displayStep. eapply yields_eq.
  - eapply (yields_bind _ _ _ b _ [] _ 0%nat _).
    + exists s. unfold index.
      replace (Z.of_nat i <? 0) with false by (symmetry; apply Z.ltb_ge; lia).
      rewrite Nat2Z.id, Hb.
      split; [reflexivity|]. split; [reflexivity|]. lia.
    + intros s1 _. apply yields_displayBits. lia.
  - reflexivity.
  - reflexivity.
Qed.

Lemma yields_step_panic (img : list Z) (i : nat) (s : HW) :
  img !! i = None -> yields (displayStep P img (Z.of_nat i)) s Panic [] 0.
Proof.
  intros Hb. unfold displayStep. apply yields_stop. exists s. unfold index.
  replace (Z.of_nat i <? 0) with false by (symmetry; apply Z.ltb_ge; lia).
  rewrite Nat2Z.id, Hb.
  split; [reflexivity|]. split; [reflexivity|]. lia.
Qed.

(** A scan of [count] indices from [st]: it sends the expansion of the
    bytes that are there, and panics at the first index past the end. *)
Lemma yields_scan (img : list Z) (count : nat) :
  forall (st : nat) (s : HW),
    yields (forFrom count (Z.of_nat st) (displayStep P img)) s
      (if (count <=? length (drop st img))%nat then Ok tt else Panic)
      (dataRun (flat_map expandByte (take count (drop st img)))) 0.
Proof.
  induction count as [|count IH]; intros st s.
  - apply yields_ret.
  - cbn [forFrom]. destruct (img !! st) as [b|] eqn:Hb.
    + assert (Hd : drop st img = b :: drop (S st) img).
      { now apply drop_S. }
      rewrite Hd. cbn [take flat_map length Nat.leb].
      rewrite dataRun_app. eapply yields_eq.
      * eapply yields_bind; [apply (yields_step_ok _ _ _ _ Hb)|intros s1 _].
        replace (Z.of_nat st + 1) with (Z.of_nat (S st)) by lia.
        apply IH.
      * reflexivity.
      * reflexivity.
    + rewrite drop_ge by (now apply lookup_ge_None).
      cbn [take flat_map length Nat.leb].
      apply yields_stop. now apply yields_step_panic.
Qed.

Lemma yields_rows (img : list Z) (w h : nat) (s : HW) :
  yields
    (forFrom h 0 (fun j =>
       forFrom w 0 (fun i =>
         let* b := index img (i + j * Z.of_nat w) in
         displayBits P 8 0 (Byte8.not b)))) s
    (if (h * w <=? length img)%nat then Ok tt else Panic)
    (dataRun (flat_map expandByte (take (h * w) img))) 0.
Proof.
  eapply yields_ext.
  - intros t. symmetry. apply (forFrom_rows (displayStep P img) w h 0 t).
  - change (0 * Z.of_nat w) with (Z.of_nat 0).
    apply (yields_scan img _ 0%nat s).
Qed.

Lemma yields_Display_loops (e : Epd) (img : list Z) (s : HW) :
  0 <= widthByte e -> 0 <= heightByte e ->
  yields
    (forUpTo (heightByte e) (fun j =>
       forUpTo (widthByte e) (fun i =>
         let* b := index img (i + j * widthByte e) in
         displayBits P 8 0 (Byte8.not b)))) s
    (if (Z.to_nat (widthByte e * heightByte e) <=? length img)%nat
     then Ok tt else Panic)
    (dataRun (flat_map expandByte
                (take (Z.to_nat (widthByte e * heightByte e)) img))) 0.
Proof.
  destruct e as [wz hz]. cbn [widthByte heightByte]. intros Hw Hh.
  assert (exists w : nat, wz = Z.of_nat w) as [w ->]
    by (exists (Z.to_nat wz); lia).
  assert (exists h : nat, hz = Z.of_nat h) as [h ->]
    by (exists (Z.to_nat hz); lia).
  unfold forUpTo. rewrite <- Nat2Z.inj_mul, !Nat2Z.id.
  rewrite (Nat.mul_comm w h). apply yields_rows.
Qed.

(** A buffer that covers the frame: its first bytes are sent, the
    display is refreshed. *)
Lemma yields_Display_ok (fuel n : nat) (e : Epd) (img : list Z) (s : HW) :
  0 <= widthByte e -> 0 <= heightByte e ->
  (Z.to_nat (widthByte e * heightByte e) <= length img)%nat ->
  idleAfter P s n -> (n < fuel)%nat ->
  yields (Display P fuel e img) s (Ok tt)
    ([EvLog "Start e-paper display"]
       ++ commandEvents DataStartTransmission1
       ++ dataRun (flat_map expandByte
                     (take (Z.to_nat (widthByte e * heightByte e)) img))
       ++ [EvLog "End e-paper display image process"]
       ++ refreshEvents n
       ++ [EvLog "End e-paper display"])
    (S n).
Proof.
  intros Hw Hh Hlen Hidle Hn. unfold Display. eapply yields_eq.
  - eapply yields_bind; [apply yields_logPrintln|intros s1 H1].
    eapply yields_bind; [apply (yields_sendCommand P Hrel)|intros s2 H2].
    eapply yields_bind.
    + pose proof (yields_Display_loops e img s2 Hw Hh) as Hloops.
      apply Nat.leb_le in Hlen. rewrite Hlen in Hloops. exact Hloops.
    + intros s3 H3.
      eapply yields_bind; [apply yields_logPrintln|intros s4 H4].
      eapply yields_bind.
      * apply (yields_turnOnDisplay P Hrel fuel n); [|exact Hn].
        eapply idleAfter_polls; [|exact Hidle]. lia.
      * intros s5 H5. apply yields_logPrintln.
  - reflexivity.
  - lia.
Qed.

(** A buffer shorter than the frame: all of it is sent, then the index
    runs past its end. *)
Lemma yields_Display_short (fuel : nat) (e : Epd) (img : list Z) (s : HW) :
  0 <= widthByte e -> 0 <= heightByte e ->
  (length img < Z.to_nat (widthByte e * heightByte e))%nat ->
  yields (Display P fuel e img) s Panic
    ([EvLog "Start e-paper display"]
       ++ commandEvents DataStartTransmission1
       ++ dataRun (flat_map expandByte img))
    0.
Proof.
  intros Hw Hh Hlen. unfold Display. eapply yields_eq.
  - eapply yields_bind; [apply yields_logPrintln|intros s1 H1].
    eapply yields_bind; [apply (yields_sendCommand P Hrel)|intros s2 H2].
    apply yields_stop.
    pose proof (yields_Display_loops e img s2 Hw Hh) as Hloops.
    apply Nat.leb_gt in Hlen. rewrite Hlen in Hloops.
    rewrite take_ge in Hloops by (apply Nat.leb_gt in Hlen; lia).
    exact Hloops.
  - reflexivity.
  - reflexivity.
Qed.

End DisplayRuns.

(** ** The bytes on the channel *)

Lemma exchanged_dataRun (ds : list Z) (rest : list Event) (fr : list Frame) :
  (forall dc : Level, exchanged dc rest = fr) ->
  forall dc : Level, exchanged dc (dataRun ds ++ rest) = map Data ds ++ fr.
Proof.
  intros Hrest. induction ds as [|d ds IH]; intros dc.
  - apply Hrest.
  - change (dataRun (d :: ds)) with (dataEvents d ++ dataRun ds).
    rewrite <- app_assoc. cbn. now rewrite IH.
Qed.

Lemma exchanged_refresh (n : nat) (msg : string) (dc : Level) :
  exchanged dc (refreshEvents n ++ [EvLog msg]) = [Command DisplayRefresh].
Proof.
  unfold refreshEvents. rewrite <- app_assoc. cbn -[idleWaitEvents].
  now rewrite (exchanged_quiet _ _ _ (quiet_idleWaitEvents n)).
Qed.

Lemma exchanged_refresh_only (n : nat) (dc : Level) :
  exchanged dc (refreshEvents n) = [Command DisplayRefresh].
Proof.
  rewrite <- (app_nil_r (refreshEvents n)). unfold refreshEvents.
  rewrite <- app_assoc. cbn -[idleWaitEvents].
  now rewrite (exchanged_quiet _ _ _ (quiet_idleWaitEvents n)).
Qed.

(** What [Display] puts on the channel when it runs to its end. *)
Lemma exchanged_Display (n : nat) (ds : list Z) (dc : Level) :
  exchanged dc
    ([EvLog "Start e-paper display"]
       ++ commandEvents DataStartTransmission1
       ++ dataRun ds
       ++ [EvLog "End e-paper display image process"]
       ++ refreshEvents n
       ++ [EvLog "End e-paper display"])
  = Command DataStartTransmission1 :: map Data ds ++ [Command DisplayRefresh].
Proof.
  cbn -[refreshEvents dataRun]. f_equal.
  apply exchanged_dataRun. intros dc'. cbn -[refreshEvents].
  apply exchanged_refresh.
Qed.

(** What [Display] puts on the channel before it runs past the buffer. *)
Lemma exchanged_Display_short (ds : list Z) (dc : Level) :
  exchanged dc
    ([EvLog "Start e-paper display"]
       ++ commandEvents DataStartTransmission1
       ++ dataRun ds)
  = Command DataStartTransmission1 :: map Data ds.
Proof.
  cbn -[dataRun]. f_equal. rewrite <- (app_nil_r (dataRun ds)).
  rewrite (exchanged_dataRun ds [] []); [apply app_nil_r|reflexivity].
Qed.

(** What [Clear] puts on the channel. *)
Lemma exchanged_Clear (n : nat) (ds : list Z) (dc : Level) :
  exchanged dc
    (commandEvents DataStartTransmission1 ++ dataRun ds ++ refreshEvents n)
  = Command DataStartTransmission1 :: map Data ds ++ [Command DisplayRefresh].
Proof.
  cbn -[refreshEvents dataRun]. f_equal.
  apply exchanged_dataRun. intros dc'. apply exchanged_refresh_only.
Qed.

Lemma wire_app_fresh (evs : list Event) : wire (trace hw0 ++ evs) = wire evs.
Proof. reflexivity. Qed.

(** ** The expansion of a byte *)

Lemma wrap_mod (z : Z) : Byte8.wrap z = z mod 256.
Proof. unfold Byte8.wrap. apply (Z.land_ones z 8). lia. Qed.

Lemma not_mod (b : Z) : Byte8.not (b mod 256) = Byte8.not b.
Proof.
  unfold Byte8.not. rewrite !wrap_mod. unfold Z.lnot.
  rewrite (Z.div_mod b 256) at 2 by lia.
  replace (Z.pred (- (256 * (b / 256) + b mod 256)))
    with (Z.pred (- (b mod 256)) + (- (b / 256)) * 256) by lia.
  now rewrite Z_mod_plus_full.
Qed.

Lemma nibbleExpansion_mod (b : Z) :
  nibbleExpansion (b mod 256) = nibbleExpansion b.
Proof.
  unfold nibbleExpansion, nibblePair.
  change 256 with (2 ^ 8).
  rewrite !Z.mod_pow2_bits_low by lia. reflexivity.
Qed.

Lemma forall_bytes (Q : Z -> bool) :
  forallb Q (seqZ 0 256) = true ->
  forall b : Z, Byte8.is_byte b -> Q b = true.
Proof.
  intros H b Hb. rewrite forallb_forall in H. apply H.
  apply list_elem_of_In, elem_of_seqZ. unfold Byte8.is_byte in Hb. lia.
Qed.

Lemma expandByte_bytes :
  forallb (fun b => bool_decide (expandByte b = nibbleExpansion b))
    (seqZ 0 256) = true.
Proof. vm_compute. reflexivity. Qed.

(** [Display] complements the byte and sends 0x0 for a set bit of the
    complement: a bit 1 of the byte goes out as 0x3, a bit 0 as 0x0. *)
Lemma expandByte_nibbles (b : Z) : expandByte b = nibbleExpansion b.
Proof.
  rewrite <- nibbleExpansion_mod. unfold expandByte. rewrite <- not_mod.
  change (expandByte (b mod 256) = nibbleExpansion (b mod 256)).
  assert (Hb : Byte8.is_byte (b mod 256))
    by (unfold Byte8.is_byte; apply Z.mod_pos_bound; lia).
  exact (bool_decide_eq_true_1 _
           (forall_bytes
              (fun b => bool_decide (expandByte b = nibbleExpansion b))
              expandByte_bytes (b mod 256) Hb)).
Qed.

Lemma nibblePair_codes (b n : Z) :
  nibblePair b n = 0x00 \/ nibblePair b n = 0x03
  \/ nibblePair b n = 0x30 \/ nibblePair b n = 0x33.
Proof.
  unfold nibblePair.
  destruct (Z.testbit b n), (Z.testbit b (n - 1)); cbn; auto.
Qed.

Lemma nibbleExpansion_codes (l : list Z) :
  Forall (fun d => d = 0x00 \/ d = 0x03 \/ d = 0x30 \/ d = 0x33)
    (flat_map nibbleExpansion l).
Proof.
  induction l as [|b l IH]; [constructor|].
  cbn [flat_map]. apply Forall_app. split; [|exact IH].
  unfold nibbleExpansion.
  do 4 (constructor; [apply nibblePair_codes|]). constructor.
Qed.

Lemma flat_map_ext_all {A B : Type} (f g : A -> list B) (l : list A) :
  (forall a : A, f a = g a) -> flat_map f l = flat_map g l.
Proof.
  intros H. induction l as [|a l IH]; [reflexivity|].
  cbn [flat_map]. now rewrite H, IH.
Qed.

Lemma New_width_nonneg : 0 <= widthByte New.
Proof. vm_compute. discriminate. Qed.

Lemma New_height_nonneg : 0 <= heightByte New.
Proof. vm_compute. discriminate. Qed.

Lemma frameLength_pos : (0 < frameLength)%nat.
Proof.
  unfold frameLength. change (widthByte New * heightByte New) with 48000.
  lia.
Qed.

Lemma idle_reliable : reliable idle.
Proof. intros k. reflexivity. Qed.

Lemma idle_idleAfter (s : HW) : idleAfter idle s 0.
Proof. split; [intros k Hk; lia|reflexivity]. Qed.

Lemma zeroBuffer_length : length zeroBuffer = frameLength.
Proof. apply length_replicate. Qed.

(** [Display] on the controller of [New], for a buffer that covers the
    frame. *)
Lemma Display_run (P : Panel) (fuel n : nat) (img : list Z) (s : HW) :
  reliable P -> idleAfter P s n -> (n < fuel)%nat ->
  (frameLength <= length img)%nat ->
  exists s' : HW,
    Display P fuel New img s = (Ok tt, s')
    /\ trace s' =
         trace s
           ++ [EvLog "Start e-paper display"]
           ++ commandEvents DataStartTransmission1
           ++ dataRun (flat_map expandByte (take frameLength img))
           ++ [EvLog "End e-paper display image process"]
           ++ refreshEvents n
           ++ [EvLog "End e-paper display"].
Proof.
  intros Hrel Hidle Hn Hlen.
  apply yields_run with (dp := S n).
  apply (yields_Display_ok P Hrel fuel n New img s
           New_width_nonneg New_height_nonneg Hlen Hidle Hn).
Qed.

(** C4 (as amended): for every buffer of length bytes-per-row x rows, on
    lines that do not fail and a panel that comes idle, [Display] sends the
    data-start command, then for each byte of the buffer in order its four
    data bytes, then refreshes the display: the display-refresh command, a
    sleep of 100 ms and the wait on the busy line. *)
Theorem Display_trace (P : Panel) (fuel n : nat) (img : list Z) (s : HW) :
  reliable P -> idleAfter P s n -> (n < fuel)%nat ->
  length img = frameLength ->
  exists s' : HW,
    Display P fuel New img s = (Ok tt, s')
    /\ trace s' =
         trace s
           ++ [EvLog "Start e-paper display"]
           ++ commandEvents DataStartTransmission1
           ++ concat (map (fun b => dataRun (expandByte b)) img)
           ++ [EvLog "End e-paper display image process"]
           ++ commandEvents DisplayRefresh
           ++ [EvSleep 100]
           ++ idleWaitEvents n
           ++ [EvLog "End e-paper display"]
    /\ Forall (fun b => length (expandByte b) = 4%nat) img.
Proof.
  intros Hrel Hidle Hn Hlen.
  destruct (Display_run P fuel n img s Hrel Hidle Hn) as (s' & Hs & Ht);
    [lia|].
  exists s'. split; [exact Hs|]. split.
  - rewrite Ht, <- Hlen, firstn_all, dataRun_flat_map.
    unfold refreshEvents. rewrite <- !app_assoc. reflexivity.
  - apply Forall_forall. intros b _. apply expandByte_length.
Qed.

Lemma Display_trace_witness :
  exists s' : HW,
    Display slow 4 New zeroBuffer hw0 = (Ok tt, s')
    /\ trace s' =
         trace hw0
           ++ [EvLog "Start e-paper display"]
           ++ commandEvents DataStartTransmission1
           ++ concat (map (fun b => dataRun (expandByte b)) zeroBuffer)
           ++ [EvLog "End e-paper display image process"]
           ++ commandEvents DisplayRefresh
           ++ [EvSleep 100]
           ++ idleWaitEvents 3
           ++ [EvLog "End e-paper display"]
    /\ Forall (fun b => length (expandByte b) = 4%nat) zeroBuffer.
Proof.
  apply (Display_trace slow 4 3 zeroBuffer hw0).
  - intros k. reflexivity.
  - apply slow_idleAfter. reflexivity.
  - lia.
  - apply length_replicate.
Defined.

Lemma concat_pairs_length (chunks : list (list Z)) :
  Forall (fun c => length c = 2%nat) chunks ->
  length (concat chunks) = (2 * length chunks)%nat.
Proof.
  induction 1 as [|c chunks Hc _ IH]; [reflexivity|].
  cbn [concat length]. rewrite length_app, Hc, IH. lia.
Qed.

(** C4, as stated, fails: on the zero buffer of the frame's length and an
    idle panel, what [Display] puts on the channel between the data-start
    command and the display-refresh command is not two data bytes for each
    byte of the buffer. *)
Lemma Display_not_two_bytes_per_byte :
  ~ (exists (s' : HW) (chunks : list (list Z)),
       Display idle 1 New zeroBuffer hw0 = (Ok tt, s')
       /\ length chunks = length zeroBuffer
       /\ Forall (fun c => length c = 2%nat) chunks
       /\ wire (trace s') =
            Command DataStartTransmission1 :: map Data (concat chunks)
              ++ [Command DisplayRefresh]).
Proof.
  intros (s' & chunks & Hs & Hlen & Hpairs & Hwire).
  destruct (Display_run idle 1 0 zeroBuffer hw0 idle_reliable
              (idle_idleAfter hw0)) as (s'' & Hs'' & Ht);
    [lia|rewrite zeroBuffer_length; lia|].
  rewrite Hs in Hs''. injection Hs'' as <-.
  rewrite Ht, wire_app_fresh in Hwire. unfold wire in Hwire.
  rewrite exchanged_Display in Hwire.
  apply (f_equal (@length Frame)) in Hwire.
  cbn [length] in Hwire.
  rewrite !length_app, !length_map, flat_map_expandByte_length in Hwire.
  rewrite (concat_pairs_length _ Hpairs), Hlen in Hwire.
  rewrite <- zeroBuffer_length, firstn_all in Hwire.
  pose proof frameLength_pos as Hpos. rewrite <- zeroBuffer_length in Hpos.
  cbn [length] in Hwire. lia.
Qed.

(** C10: on lines that do not fail and a panel that comes idle, the data
    bytes [Display] sends between the data-start and the display-refresh
    command are, for each byte of the buffer in order, its eight bits most
    significant first as eight nibbles, two to a data byte, a bit 1 sent as
    0x3 and a bit 0 as 0x0; the loop of [Display] run on the complement of
    a byte gives these nibbles; every data byte is 0x00, 0x03, 0x30 or
    0x33. *)
Theorem Display_expansion (P : Panel) (fuel n : nat) (img : list Z) (s : HW) :
  reliable P -> idleAfter P s n -> (n < fuel)%nat ->
  length img = frameLength ->
  exists (s' : HW) (evs : list Event),
    Display P fuel New img s = (Ok tt, s')
    /\ trace s' = trace s ++ evs
    /\ (forall dc : Level,
          exchanged dc evs =
            Command DataStartTransmission1
              :: map Data (flat_map nibbleExpansion img)
              ++ [Command DisplayRefresh])
    /\ (forall b : Z, expandBits 8 0 (Byte8.not b) = nibbleExpansion b)
    /\ Forall (fun d => d = 0x00 \/ d = 0x03 \/ d = 0x30 \/ d = 0x33)
         (flat_map nibbleExpansion img).
Proof.
  intros Hrel Hidle Hn Hlen.
  destruct (Display_run P fuel n img s Hrel Hidle Hn) as (s' & Hs & Ht);
    [lia|].
  eexists s', _. split; [exact Hs|]. split; [exact Ht|]. split; [|split].
  - intros dc. rewrite exchanged_Display, <- Hlen, firstn_all.
    now rewrite (flat_map_ext_all _ _ img expandByte_nibbles).
  - exact expandByte_nibbles.
  - apply nibbleExpansion_codes.
Qed.

Lemma Display_expansion_witness :
  exists (s' : HW) (evs : list Event),
    Display slow 4 New zeroBuffer hw0 = (Ok tt, s')
    /\ trace s' = trace hw0 ++ evs
    /\ (forall dc : Level,
          exchanged dc evs =
            Command DataStartTransmission1
              :: map Data (flat_map nibbleExpansion zeroBuffer)
              ++ [Command DisplayRefresh])
    /\ (forall b : Z, expandBits 8 0 (Byte8.not b) = nibbleExpansion b)
    /\ Forall (fun d => d = 0x00 \/ d = 0x03 \/ d = 0x30 \/ d = 0x33)
         (flat_map nibbleExpansion zeroBuffer).
Proof.
  apply (Display_expansion slow 4 3 zeroBuffer hw0).
  - intros k. reflexivity.
  - apply slow_idleAfter. reflexivity.
  - lia.
  - apply length_replicate.
Defined.

(** C3, as stated, fails: given the one-byte buffer [0xFF], on an idle
    panel, [Display] returns no error; it sends the data-start command and
    the four data bytes of the one byte, then the runtime panics on the
    index 1. *)
Lemma Display_short_buffer_transmits :
  (exists s' : HW,
     Display idle 1 New [0xFF] hw0 = (Panic, s')
     /\ wire (trace s') =
          [Command DataStartTransmission1;
           Data 0x33; Data 0x33; Data 0x33; Data 0x33])
  /\ ~ (exists (e : error) (s' : HW),
          Display idle 1 New [0xFF] hw0 = (Err e, s')
          /\ wire (trace s') = []).
Proof.
  split.
  - eexists. split; vm_compute; reflexivity.
  - intros (e & s' & Hs & _). vm_compute in Hs. discriminate Hs.
Qed.

(** C3 (as amended): [Display] does not check the length of the buffer.
    On lines that do not fail, given a buffer shorter than bytes-per-row x
    rows it sends the data-start command and the data bytes of every byte
    of the buffer, and then stops in an index-out-of-range panic, without a
    refresh; given a buffer at least that long, on a panel that comes idle,
    it sends the data bytes of the first bytes-per-row x rows bytes,
    refreshes the display and returns no error. *)
Theorem Display_unchecked_length (P : Panel) (fuel n : nat) (s : HW) :
  reliable P -> idleAfter P s n -> (n < fuel)%nat ->
  (forall img : list Z,
     (length img < frameLength)%nat ->
     exists s' : HW,
       Display P fuel New img s = (Panic, s')
       /\ trace s' =
            trace s
              ++ [EvLog "Start e-paper display"]
              ++ commandEvents DataStartTransmission1
              ++ dataRun (flat_map expandByte img))
  /\ (forall img : list Z,
        (frameLength <= length img)%nat ->
        exists s' : HW,
          Display P fuel New img s = (Ok tt, s')
          /\ trace s' =
               trace s
                 ++ [EvLog "Start e-paper display"]
                 ++ commandEvents DataStartTransmission1
                 ++ dataRun (flat_map expandByte (take frameLength img))
                 ++ [EvLog "End e-paper display image process"]
                 ++ refreshEvents n
                 ++ [EvLog "End e-paper display"]).
Proof.
  intros Hrel Hidle Hn. split; intros img Hlen.
  - apply yields_run with (dp := 0%nat).
    apply (yields_Display_short P Hrel fuel New img s
             New_width_nonneg New_height_nonneg Hlen).
  - now apply Display_run.
Qed.

Lemma Display_unchecked_length_witness :
  (forall img : list Z,
     (length img < frameLength)%nat ->
     exists s' : HW,
       Display slow 4 New img hw0 = (Panic, s')
       /\ trace s' =
            trace hw0
              ++ [EvLog "Start e-paper display"]
              ++ commandEvents DataStartTransmission1
              ++ dataRun (flat_map expandByte img))
  /\ (forall img : list Z,
        (frameLength <= length img)%nat ->
        exists s' : HW,
          Display slow 4 New img hw0 = (Ok tt, s')
          /\ trace s' =
               trace hw0
                 ++ [EvLog "Start e-paper display"]
                 ++ commandEvents DataStartTransmission1
                 ++ dataRun (flat_map expandByte (take frameLength img))
                 ++ [EvLog "End e-paper display image process"]
                 ++ refreshEvents 3
                 ++ [EvLog "End e-paper display"]).
Proof.
  apply (Display_unchecked_length slow 4 3 hw0).
  - intros k. reflexivity.
  - apply slow_idleAfter. reflexivity.
  - lia.
Defined.

(** [Clear] on the controller of [New]. *)
Lemma Clear_run (P : Panel) (fuel n : nat) (s : HW) :
  reliable P -> idleAfter P s n -> (n < fuel)%nat ->
  exists s' : HW,
    Clear P fuel New s = (Ok tt, s')
    /\ trace s' =
         trace s
           ++ commandEvents DataStartTransmission1
           ++ dataRun (replicate
                         (Z.to_nat (4 * (widthByte New * heightByte New)))
                         0x33)
           ++ refreshEvents n.
Proof.
  intros Hrel Hidle Hn. apply yields_run with (dp := S n).
  apply (yields_Clear P Hrel fuel n New s
           New_width_nonneg New_height_nonneg Hidle Hn).
Qed.

(** C2, as stated, fails.  On a controller that no call has initialised,
    [Clear] returns no error and puts the data-start command, the filler
    and the display-refresh command on the channel; after [Init] and
    [Sleep], [Display] returns no error and puts a whole frame on the
    channel. *)
Lemma Clear_Display_ignore_mode :
  (specMode [] = Uninitialized
   /\ exists s' : HW,
        Clear idle 1 New hw0 = (Ok tt, s')
        /\ wire (trace s') =
             Command DataStartTransmission1
               :: map Data (replicate
                              (Z.to_nat (4 * (widthByte New * heightByte New)))
                              0x33)
               ++ [Command DisplayRefresh])
  /\ (specMode [CallInit; CallSleep] = Sleeping
      /\ fst (calls idle 1 New [CallInit; CallSleep] hw0) = Ok tt
      /\ exists (s' : HW) (evs : list Event),
           Display idle 1 New zeroBuffer
             (snd (calls idle 1 New [CallInit; CallSleep] hw0)) = (Ok tt, s')
           /\ trace s' =
                trace (snd (calls idle 1 New [CallInit; CallSleep] hw0))
                  ++ evs
           /\ wire evs =
                Command DataStartTransmission1
                  :: map Data (flat_map expandByte zeroBuffer)
                  ++ [Command DisplayRefresh]).
Proof.
  split; [split; [reflexivity|]|split; [reflexivity|split; [reflexivity|]]].
  - destruct (Clear_run idle 1 0 hw0 idle_reliable (idle_idleAfter hw0))
      as (s' & Hs & Ht); [lia|].
    exists s'. split; [exact Hs|].
    rewrite Ht, wire_app_fresh. apply exchanged_Clear.
  - destruct (Display_run idle 1 0 zeroBuffer
                (snd (calls idle 1 New [CallInit; CallSleep] hw0))
                idle_reliable (idle_idleAfter _))
      as (s' & Hs & Ht); [lia|rewrite zeroBuffer_length; lia|].
    eexists s', _. split; [exact Hs|]. split; [exact Ht|].
    unfold wire. rewrite exchanged_Display.
    rewrite <- zeroBuffer_length, firstn_all. reflexivity.
Qed.

(** C2 (as amended): [Display] and [Clear] keep and check no mode.
    Whatever calls were made on the controller before, on lines that do
    not fail and a panel that comes idle, [Clear] returns no error and puts
    the data-start command, the filler bytes and the display-refresh
    command on the channel, and [Display] with a buffer of the frame's
    length returns no error and puts the data-start command, the data bytes
    of the buffer and the display-refresh command on the channel. *)
Theorem Clear_Display_any_mode (P : Panel) (fuel n : nat) (cs : list Call)
    (s0 : HW) :
  let s := snd (calls P fuel New cs s0) in
  reliable P -> idleAfter P s n -> (n < fuel)%nat ->
  (exists (s' : HW) (evs : list Event),
     Clear P fuel New s = (Ok tt, s')
     /\ trace s' = trace s ++ evs
     /\ forall dc : Level,
          exchanged dc evs =
            Command DataStartTransmission1
              :: map Data (replicate
                             (Z.to_nat (4 * (widthByte New * heightByte New)))
                             0x33)
              ++ [Command DisplayRefresh])
  /\ (forall img : list Z,
        length img = frameLength ->
        exists (s' : HW) (evs : list Event),
          Display P fuel New img s = (Ok tt, s')
          /\ trace s' = trace s ++ evs
          /\ forall dc : Level,
               exchanged dc evs =
                 Command DataStartTransmission1
                   :: map Data (flat_map expandByte img)
                   ++ [Command DisplayRefresh]).
Proof.
  intros s Hrel Hidle Hn. split.
  - destruct (Clear_run P fuel n s Hrel Hidle Hn) as (s' & Hs & Ht).
    eexists s', _. split; [exact Hs|]. split; [exact Ht|].
    intros dc. apply exchanged_Clear.
  - intros img Hlen.
    destruct (Display_run P fuel n img s Hrel Hidle Hn) as (s' & Hs & Ht);
      [lia|].
    eexists s', _. split; [exact Hs|]. split; [exact Ht|].
    intros dc. rewrite exchanged_Display, <- Hlen, firstn_all. reflexivity.
Qed.

Lemma Clear_Display_any_mode_witness :
  (exists (s' : HW) (evs : list Event),
     Clear idle 1 New (snd (calls idle 1 New [CallInit; CallSleep] hw0))
       = (Ok tt, s')
     /\ trace s' =
          trace (snd (calls idle 1 New [CallInit; CallSleep] hw0)) ++ evs
     /\ forall dc : Level,
          exchanged dc evs =
            Command DataStartTransmission1
              :: map Data (replicate
                             (Z.to_nat (4 * (widthByte New * heightByte New)))
                             0x33)
              ++ [Command DisplayRefresh])
  /\ (forall img : list Z,
        length img = frameLength ->
        exists (s' : HW) (evs : list Event),
          Display idle 1 New img
            (snd (calls idle 1 New [CallInit; CallSleep] hw0)) = (Ok tt, s')
          /\ trace s' =
               trace (snd (calls idle 1 New [CallInit; CallSleep] hw0))
                 ++ evs
          /\ forall dc : Level,
               exchanged dc evs =
                 Command DataStartTransmission1
                   :: map Data (flat_map expandByte img)
                   ++ [Command DisplayRefresh]).
Proof.
  apply (Clear_Display_any_mode idle 1 0 [CallInit; CallSleep] hw0).
  - intros k. reflexivity.
  - split; [intros k Hk; lia|reflexivity].
  - lia.
Defined.

(** ** [Convert] *)

Lemma foldFrom_S {S : Type} (n : nat) (i : Z) (body : Z -> S -> option S)
    (s : S) :
  foldFrom (Datatypes.S n) i body s =
    match body i s with
    | Some s' => foldFrom n (i + 1) body s'
    | None => None
    end.
Proof. reflexivity. Qed.

Lemma foldFrom_app {S : Type} (body : Z -> S -> option S) (n m : nat) :
  forall (i : Z) (s : S),
    foldFrom (n + m) i body s =
      match foldFrom n i body s with
      | Some s' => foldFrom m (i + Z.of_nat n) body s'
      | None => None
      end.
Proof.
  induction n as [|n IH]; intros i s.
  - simpl. now rewrite Z.add_0_r.
  - cbn [Nat.add]. rewrite !foldFrom_S. destruct (body i s) as [s'|]; [|reflexivity].
    rewrite IH. destruct (foldFrom n (i + 1) body s'); [|reflexivity].
    f_equal. lia.
Qed.

Lemma convertPixel_eq (e : Epd) (img : Img.Image) (j i acc : Z)
    (buffer : list Z) :
  convertPixel e img j i (acc, buffer) =
    if Z.rem i 8 =? 7 then
      match store buffer (Z.quot i 8 + j * widthByte e) (setPixel img j i acc) with
      | Some buffer' => Some (PanelSetting, buffer')
      | None => None
      end
    else Some (setPixel img j i acc, buffer).
Proof. reflexivity. Qed.

Lemma rem_8 (c t : Z) : 0 <= c -> 0 <= t < 8 -> Z.rem (8 * c + t) 8 = t.
Proof.
  intros Hc Ht. rewrite Z.rem_mod_nonneg by lia.
  replace (8 * c + t) with (t + c * 8) by lia.
  rewrite Z_mod_plus_full. apply Z.mod_small. lia.
Qed.

Lemma quot_8 (c t : Z) : 0 <= c -> 0 <= t < 8 -> Z.quot (8 * c + t) 8 = c.
Proof.
  intros Hc Ht. rewrite Z.quot_div_nonneg by lia.
  symmetry. apply (Z.div_unique _ _ c t); lia.
Qed.

Lemma rowByte_unfold (img : Img.Image) (j c : Z) :
  rowByte img j c =
    setPixel img j (8 * c + 7) (setPixel img j (8 * c + 6)
      (setPixel img j (8 * c + 5) (setPixel img j (8 * c + 4)
        (setPixel img j (8 * c + 3) (setPixel img j (8 * c + 2)
          (setPixel img j (8 * c + 1) (setPixel img j (8 * c + 0)
            PanelSetting))))))).
Proof. reflexivity. Qed.

Lemma convert_mid (e : Epd) (img : Img.Image) (j c t t' acc : Z)
    (buffer : list Z) (n : nat) :
  0 <= c -> 0 <= t < 7 -> t' = t + 1 ->
  foldFrom (S n) (8 * c + t) (convertPixel e img j) (acc, buffer) =
    foldFrom n (8 * c + t') (convertPixel e img j)
      (setPixel img j (8 * c + t) acc, buffer).
Proof.
  intros Hc Ht ->. rewrite foldFrom_S, convertPixel_eq, rem_8 by lia.
  replace (t =? 7) with false by (symmetry; apply Z.eqb_neq; lia).
  f_equal. lia.
Qed.

Lemma convert_last (e : Epd) (img : Img.Image) (j c acc : Z)
    (buffer : list Z) :
  0 <= c ->
  foldFrom 1 (8 * c + 7) (convertPixel e img j) (acc, buffer) =
    match
      store buffer (c + j * widthByte e) (setPixel img j (8 * c + 7) acc)
    with
    | Some buffer' => Some (PanelSetting, buffer')
    | None => None
    end.
Proof.
  intros Hc. rewrite foldFrom_S, convertPixel_eq, rem_8, quot_8 by lia.
  rewrite Z.eqb_refl. now destruct (store _ _ _).
Qed.

(** The eight trips of the inner loop for one byte of a row. *)
Lemma convert_chunk (e : Epd) (img : Img.Image) (j c : Z) (buffer : list Z) :
  0 <= c ->
  foldFrom 8 (8 * c) (convertPixel e img j) (PanelSetting, buffer) =
    match store buffer (c + j * widthByte e) (rowByte img j c) with
    | Some buffer' => Some (PanelSetting, buffer')
    | None => None
    end.
Proof.
  intros Hc. rewrite rowByte_unfold.
  rewrite <- (Z.add_0_r (8 * c)) at 1.
  rewrite (convert_mid e img j c 0 1) by lia.
  rewrite (convert_mid e img j c 1 2) by lia.
  rewrite (convert_mid e img j c 2 3) by lia.
  rewrite (convert_mid e img j c 3 4) by lia.
  rewrite (convert_mid e img j c 4 5) by lia.
  rewrite (convert_mid e img j c 5 6) by lia.
  rewrite (convert_mid e img j c 6 7) by lia.
  now apply convert_last.
Qed.

Section ConvertFrame.

Variable img : Img.Image.
Variables w h : nat.

Lemma partialFrame_length (k : nat) :
  (k <= w * h)%nat -> length (partialFrame w h img k) = (w * h)%nat.
Proof.
  intros Hk. unfold partialFrame.
  rewrite length_app, length_fmap, length_seqZ, length_replicate, Nat2Z.id.
  lia.
Qed.

Lemma store_next (k : nat) :
  (k < w * h)%nat ->
  store (partialFrame w h img k) (Z.of_nat k)
    (frameByte (Z.of_nat w) img (Z.of_nat k))
  = Some (partialFrame w h img (S k)).
Proof.
  intros Hk. unfold store. rewrite partialFrame_length by lia.
  replace ((0 <=? Z.of_nat k) && (Z.of_nat k <? Z.of_nat (w * h)))
    with true
    by (symmetry; apply andb_true_intro; split;
        [apply Z.leb_le|apply Z.ltb_lt]; lia).
  f_equal. rewrite Nat2Z.id. unfold partialFrame.
  rewrite insert_app_r_alt
    by (rewrite length_fmap, length_seqZ, Nat2Z.id; lia).
  rewrite length_fmap, length_seqZ, Nat2Z.id, Nat.sub_diag.
  replace (w * h - k)%nat with (S (w * h - S k)) by lia.
  rewrite seqZ_S, fmap_app, <- app_assoc. reflexivity.
Qed.

Lemma frameByte_at (j c : nat) :
  (c < w)%nat ->
  frameByte (Z.of_nat w) img (Z.of_nat (j * w + c))
  = rowByte img (Z.of_nat j) (Z.of_nat c).
Proof.
  intros Hc. unfold frameByte.
  rewrite <- (Z.div_unique (Z.of_nat (j * w + c)) (Z.of_nat w)
                (Z.of_nat j) (Z.of_nat c)) by lia.
  rewrite <- (Z.mod_unique (Z.of_nat (j * w + c)) (Z.of_nat w)
                (Z.of_nat j) (Z.of_nat c)) by lia.
  reflexivity.
Qed.

(** [n] bytes of the row [j], from the byte [c] on. *)
Lemma convert_bytes (j : nat) (n : nat) :
  forall c : nat,
    (j < h)%nat -> (c + n <= w)%nat ->
    foldFrom (8 * n) (8 * Z.of_nat c)
      (convertPixel (mkEpd (Z.of_nat w) (Z.of_nat h)) img (Z.of_nat j))
      (PanelSetting, partialFrame w h img (j * w + c))
    = Some (PanelSetting, partialFrame w h img (j * w + c + n)).
Proof.
  induction n as [|n IH]; intros c Hj Hc.
  - rewrite Nat.add_0_r. reflexivity.
  - replace (8 * S n)%nat with (8 + 8 * n)%nat by lia.
    rewrite foldFrom_app, convert_chunk by lia.
    cbn [widthByte].
    replace (Z.of_nat c + Z.of_nat j * Z.of_nat w)
      with (Z.of_nat (j * w + c)) by lia.
    rewrite <- frameByte_at by lia.
    rewrite store_next by nia.
    replace (8 * Z.of_nat c + Z.of_nat 8) with (8 * Z.of_nat (S c)) by lia.
    replace (S (j * w + c)) with (j * w + S c)%nat by lia.
    rewrite IH by lia. f_equal. f_equal. f_equal. lia.
Qed.

Lemma convert_rows (m : nat) :
  forall j : nat,
    (j + m <= h)%nat ->
    foldFrom m (Z.of_nat j)
      (fun j' =>
         foldUpTo (8 * Z.of_nat w)
           (convertPixel (mkEpd (Z.of_nat w) (Z.of_nat h)) img j'))
      (PanelSetting, partialFrame w h img (j * w))
    = Some (PanelSetting, partialFrame w h img ((j + m) * w)).
Proof.
  induction m as [|m IH]; intros j Hj.
  - rewrite Nat.add_0_r. reflexivity.
  - rewrite foldFrom_S. unfold foldUpTo at 1.
    replace (Z.to_nat (8 * Z.of_nat w)) with (8 * w)%nat by lia.
    pose proof (convert_bytes j w 0%nat) as Hrow.
    rewrite !Nat.add_0_r in Hrow. change (8 * Z.of_nat 0) with 0 in Hrow.
    rewrite Hrow by lia.
    replace (j * w + w)%nat with (S j * w)%nat by lia.
    replace (Z.of_nat j + 1) with (Z.of_nat (S j)) by lia.
    rewrite IH by lia. f_equal. f_equal. f_equal. lia.
Qed.

Lemma convertOn_frame_nat :
  convertOn (8 * Z.of_nat w) (Z.of_nat h) (mkEpd (Z.of_nat w) (Z.of_nat h))
    img
  = Some (frameOn (Z.of_nat w) (Z.of_nat h) img).
Proof.
  unfold convertOn, bytesRepeat. cbn [widthByte heightByte].
  replace (Z.of_nat w * Z.of_nat h <? 0) with false
    by (symmetry; apply Z.ltb_ge; lia).
  unfold foldUpTo at 1. rewrite Nat2Z.id.
  assert (B0 : replicate (Z.to_nat (Z.of_nat w * Z.of_nat h)) PanelSetting
               = partialFrame w h img 0).
  { unfold partialFrame. change (seqZ 0 (Z.of_nat 0)) with (@nil Z).
    cbn [fmap list_fmap app]. rewrite Nat.sub_0_r. f_equal. lia. }
  rewrite B0.
  pose proof (convert_rows h 0%nat ltac:(lia)) as Hrows.
  change (Z.of_nat 0) with 0 in Hrows. cbn [Nat.mul Nat.add] in Hrows.
  rewrite Hrows. unfold partialFrame, frameOn.
  replace (w * h - h * w)%nat with 0%nat by lia.
  cbn [replicate]. rewrite app_nil_r.
  rewrite Nat2Z.inj_mul, (Z.mul_comm (Z.of_nat h)). reflexivity.
Qed.

End ConvertFrame.

Lemma Convert_frame (img : Img.Image) : Convert New img = Some (frame img).
Proof. exact (convertOn_frame_nat img 100 480). Qed.

Lemma frame_length (img : Img.Image) : length (frame img) = frameLength.
Proof. unfold frame, frameOn. now rewrite length_fmap, length_seqZ. Qed.

Lemma frame_lookup (img : Img.Image) (k : nat) (b : Z) :
  frame img !! k = Some b ->
  (k < frameLength)%nat
  /\ b = rowByte img (Z.of_nat k / widthByte New)
           (Z.of_nat k mod widthByte New).
Proof.
  unfold frame, frameOn. rewrite list_lookup_fmap. intros H.
  destruct (seqZ 0 (widthByte New * heightByte New) !! k) as [z|] eqn:Hz;
    [|discriminate].
  apply lookup_seqZ in Hz as [-> Hk]. injection H as <-.
  split; [unfold frameLength; lia|reflexivity].
Qed.

Lemma frame_lookup_lt (img : Img.Image) (k : nat) :
  (k < frameLength)%nat ->
  frame img !! k = Some (frameByte (widthByte New) img (Z.of_nat k)).
Proof.
  intros Hk. unfold frame, frameOn. rewrite list_lookup_fmap.
  rewrite lookup_seqZ_lt by (unfold frameLength in Hk; lia).
  reflexivity.
Qed.

(** *** The bits of a stored byte *)

Lemma shift_amount (c t : Z) :
  0 <= c -> 8 * c + 7 < 2 ^ 32 -> 0 <= t < 8 ->
  Z.rem (Img.u32 (8 * c + t)) 8 = t.
Proof.
  intros Hc Hm Ht. unfold Img.u32. rewrite Z.mod_small by lia.
  now apply rem_8.
Qed.

Lemma setPixel_eq (img : Img.Image) (j c t acc : Z) :
  0 <= c -> 8 * c + 7 < 2 ^ 32 -> 0 <= t < 8 ->
  setPixel img j (8 * c + t) acc =
    if white img (8 * c + t) j then Z.lor acc (Z.shiftr 0x80 t) else acc.
Proof.
  intros Hc Hm Ht. unfold setPixel, white.
  now rewrite shift_amount by assumption.
Qed.

Lemma rowByte_white (img : Img.Image) (j c : Z) :
  0 <= c -> 8 * c + 7 < 2 ^ 32 ->
  rowByte img j c =
    fold_left
      (fun acc t =>
         if white img (8 * c + t) j then Z.lor acc (Z.shiftr 0x80 t) else acc)
      [0; 1; 2; 3; 4; 5; 6; 7] 0.
Proof.
  intros Hc Hm. rewrite rowByte_unfold.
  rewrite !setPixel_eq by lia. reflexivity.
Qed.

Lemma rowByte_testbit (img : Img.Image) (j c t : Z) :
  0 <= c -> 8 * c + 7 < 2 ^ 32 -> 0 <= t < 8 ->
  Z.testbit (rowByte img j c) (7 - t) = white img (8 * c + t) j.
Proof.
  intros Hc Hm Ht. rewrite rowByte_white by assumption. cbn [fold_left].
  revert t Ht. apply (Forall_seqZ _ 0 8).
  change (seqZ 0 8) with [0; 1; 2; 3; 4; 5; 6; 7].
  repeat apply List.Forall_cons; [..|apply List.Forall_nil];
    destruct (white img (8 * c + 0) j), (white img (8 * c + 1) j),
      (white img (8 * c + 2) j), (white img (8 * c + 3) j),
      (white img (8 * c + 4) j), (white img (8 * c + 5) j),
      (white img (8 * c + 6) j), (white img (8 * c + 7) j);
    reflexivity.
Qed.

Lemma rowByte_is_byte (img : Img.Image) (j c : Z) :
  0 <= c -> 8 * c + 7 < 2 ^ 32 -> Byte8.is_byte (rowByte img j c).
Proof.
  intros Hc Hm. rewrite rowByte_white by assumption. cbn [fold_left].
  unfold Byte8.is_byte.
  destruct (white img (8 * c + 0) j), (white img (8 * c + 1) j),
    (white img (8 * c + 2) j), (white img (8 * c + 3) j),
    (white img (8 * c + 4) j), (white img (8 * c + 5) j),
    (white img (8 * c + 6) j), (white img (8 * c + 7) j);
    vm_compute; split; congruence.
Qed.

Lemma pixelBit_cases (img : Img.Image) (i j : Z) :
  pixelBit img i j = 0 \/ pixelBit img i j = 1.
Proof.
  unfold pixelBit, bgColor, Img.PaletteIndex. cbn [Img.indexLoop].
  repeat match goal with
         | |- context [if ?x then _ else _] => destruct x
         end; auto.
Qed.

(** Outside the rectangle of the image's width and height at the origin,
    the pixel takes the background colour. *)
Lemma white_outside_extent (img : Img.Image) (i j : Z) :
  Img.Dx (Img.Bounds img) <= i \/ Img.Dy (Img.Bounds img) <= j ->
  white img i j = true.
Proof.
  intros H. unfold white, pixelBit.
  replace ((i <? Img.Dx (Img.Bounds img)) && (j <? Img.Dy (Img.Bounds img)))
    with false; [reflexivity|].
  symmetry. apply andb_false_iff.
  destruct H; [left|right]; apply Z.ltb_ge; assumption.
Qed.

(** For an image whose bounds start at the origin, the pixels of the panel
    outside the bounds are white. *)
Lemma white_outside_origin_bounds (img : Img.Image) (i j : Z) :
  Img.MinX (Img.Bounds img) = 0 -> Img.MinY (Img.Bounds img) = 0 ->
  0 <= i -> 0 <= j ->
  Img.inside i j (Img.Bounds img) = false ->
  white img i j = true.
Proof.
  intros Hx Hy Hi Hj Hout. apply white_outside_extent.
  unfold Img.inside, Img.Dx, Img.Dy in *. rewrite Hx, Hy in *.
  rewrite !andb_false_iff in Hout. rewrite !Z.leb_gt, !Z.ltb_ge in Hout.
  lia.
Qed.

(** For an image whose bounds start at the origin, every bit of the buffer
    that stands for a pixel outside the bounds is 1. *)
Lemma Convert_pads_white_at_origin (img : Img.Image) (k : nat) (b t : Z) :
  Img.MinX (Img.Bounds img) = 0 -> Img.MinY (Img.Bounds img) = 0 ->
  frame img !! k = Some b -> 0 <= t < 8 ->
  Img.inside (8 * (Z.of_nat k mod widthByte New) + t)
    (Z.of_nat k / widthByte New) (Img.Bounds img) = false ->
  Z.testbit b (7 - t) = true.
Proof.
  intros Hx Hy Hb Ht Hout. apply frame_lookup in Hb as [Hk ->].
  assert (Hc : 0 <= Z.of_nat k mod widthByte New < 100)
    by (apply Z.mod_pos_bound; reflexivity).
  assert (Hj : 0 <= Z.of_nat k / widthByte New)
    by (apply Z.div_pos; [lia|reflexivity]).
  rewrite rowByte_testbit by lia.
  apply white_outside_origin_bounds; try assumption. lia.
Qed.

(** C6: for every image, [Convert] on the controller of [New] returns a
    buffer of bytes-per-row x rows bytes, that is (800 / 8) x 480. *)
Theorem Convert_length (img : Img.Image) :
  exists buf : list Z,
    Convert New img = Some buf
    /\ Z.of_nat (length buf) = widthByte New * heightByte New
    /\ widthByte New * heightByte New
       = Epd7in5V2Width / 8 * Epd7in5V2Height.
Proof.
  exists (frame img). split; [apply Convert_frame|]. split; [|reflexivity].
  rewrite frame_length. unfold frameLength.
  apply Z2Nat.id. vm_compute. discriminate.
Qed.

(** C1 (as amended): every byte of the buffer of [Convert] holds eight
    horizontally adjacent pixels of one row, one bit each, the leftmost in
    the most significant bit: the bit is 1 when the pixel is white (the
    palette index 1, or the background outside the width and height of the
    image) and 0 when it is black. *)
Theorem Convert_packs_eight_pixels (img : Img.Image) :
  exists buf : list Z,
    Convert New img = Some buf
    /\ length buf = frameLength
    /\ forall (k : nat) (b : Z),
         buf !! k = Some b ->
         Byte8.is_byte b
         /\ forall t : Z,
              0 <= t < 8 ->
              Z.testbit b (7 - t)
              = white img (8 * (Z.of_nat k mod widthByte New) + t)
                  (Z.of_nat k / widthByte New).
Proof.
  exists (frame img). split; [apply Convert_frame|].
  split; [apply frame_length|].
  intros k b Hb. apply frame_lookup in Hb as [Hk ->].
  assert (Hc : 0 <= Z.of_nat k mod widthByte New < 100)
    by (apply Z.mod_pos_bound; reflexivity).
  split.
  - apply rowByte_is_byte; lia.
  - intros t Ht. apply rowByte_testbit; lia.
Qed.

Lemma packNibbles_table :
  forallb
    (fun n1 => forallb (fun n2 => packNibbles n1 n2 =? 16 * n1 + n2)
                 (seqZ 0 16))
    (seqZ 0 16) = true.
Proof. vm_compute. reflexivity. Qed.

Lemma packNibbles_arith (n1 n2 : Z) :
  0 <= n1 < 16 -> 0 <= n2 < 16 -> packNibbles n1 n2 = 16 * n1 + n2.
Proof.
  intros H1 H2. pose proof packNibbles_table as T.
  rewrite forallb_forall in T.
  specialize (T n1 ltac:(apply list_elem_of_In, elem_of_seqZ; lia)).
  rewrite forallb_forall in T.
  specialize (T n2 ltac:(apply list_elem_of_In, elem_of_seqZ; lia)).
  now apply Z.eqb_eq.
Qed.

Lemma frameLength_gt_1 : (1 < frameLength)%nat.
Proof.
  unfold frameLength. change (widthByte New * heightByte New) with 48000.
  lia.
Qed.

(** C1, as stated, fails: for the image [stripe] the first byte of the
    buffer is 0x7F and the second 0x00, so the nibbles 0x7, 0xF and 0x0
    all occur; no two 4-bit codes give every byte of the buffer as
    (first << 4) | second. *)
Lemma Convert_bytes_not_nibble_pairs :
  exists buf : list Z,
    Convert New stripe = Some buf
    /\ buf !! 0%nat = Some 0x7F
    /\ buf !! 1%nat = Some 0x00
    /\ ~ (exists cB cW : Z,
            0 <= cB < 16 /\ 0 <= cW < 16
            /\ Forall
                 (fun b =>
                    exists n1 n2 : Z,
                      (n1 = cB \/ n1 = cW) /\ (n2 = cB \/ n2 = cW)
                      /\ b = packNibbles n1 n2)
                 buf).
Proof.
  exists (frame stripe). split; [apply Convert_frame|].
  assert (H0 : frame stripe !! 0%nat = Some 0x7F).
  { rewrite frame_lookup_lt by (pose proof frameLength_gt_1; lia).
    reflexivity. }
  assert (H1 : frame stripe !! 1%nat = Some 0x00).
  { rewrite frame_lookup_lt by (pose proof frameLength_gt_1; lia).
    reflexivity. }
  split; [exact H0|]. split; [exact H1|].
  intros (cB & cW & HB & HW & Hall).
  rewrite Forall_lookup in Hall.
  destruct (Hall _ _ H0) as (n1 & n2 & Hn1 & Hn2 & E0).
  destruct (Hall _ _ H1) as (m1 & m2 & Hm1 & Hm2 & E1).
  rewrite packNibbles_arith in E0 by (destruct Hn1, Hn2; lia).
  rewrite packNibbles_arith in E1 by (destruct Hm1, Hm2; lia).
  destruct Hn1, Hn2, Hm1, Hm2; lia.
Qed.

(** C7 at [shiftedGray], an 8 by 1 image whose bounds start at (8, 0): the
    pixel (0, 0) of the panel lies outside the bounds of the image, yet
    [Convert] asks the image for its colour there and stores it as black;
    the whole first byte of the buffer is 0x00. *)
Theorem Convert_shifted_image_black_outside :
  Img.Dx (Img.Bounds shiftedGray) < Epd7in5V2Width
  /\ Img.inside 0 0 (Img.Bounds shiftedGray) = false
  /\ white shiftedGray 0 0 = false
  /\ exists buf : list Z,
       Convert New shiftedGray = Some buf
       /\ buf !! 0%nat = Some 0x00.
Proof.
  split; [reflexivity|]. split; [reflexivity|]. split; [reflexivity|].
  exists (frame shiftedGray). split; [apply Convert_frame|].
  rewrite frame_lookup_lt by (pose proof frameLength_gt_1; lia).
  reflexivity.
Qed.

(** * Further properties *)

(** ** The wait on the busy line *)

Lemma pollBusy_S (P : Panel) (fuel : nat) (s : HW) :
  pollBusy P (S fuel) s =
    match busy_level P (polls s) with
    | Low =>
        pollBusy P fuel (record (EvSleep 5) (record (EvRead Low) (polled s)))
    | High => (Ok tt, record (EvRead High) (polled s))
    end.
Proof.
  cbn [pollBusy]. unfold bind at 1. unfold busyRead.
  destruct (busy_level P (polls s)); reflexivity.
Qed.

Lemma pollBusy_ops (P : Panel) (fuel : nat) :
  forall s : HW, ops (snd (pollBusy P fuel s)) = ops s.
Proof.
  induction fuel as [|fuel IH]; intros s; [reflexivity|].
  rewrite pollBusy_S. destruct (busy_level P (polls s)).
  - rewrite IH. reflexivity.
  - reflexivity.
Qed.

Lemma pollBusy_outcome (P : Panel) (fuel : nat) :
  forall s : HW,
    fst (pollBusy P fuel s) = Ok tt \/ fst (pollBusy P fuel s) = Hang.
Proof.
  induction fuel as [|fuel IH]; intros s; [right; reflexivity|].
  rewrite pollBusy_S. destruct (busy_level P (polls s)).
  - apply IH.
  - left. reflexivity.
Qed.

Lemma pollBusy_returned (P : Panel) (fuel : nat) :
  forall s s' : HW,
    pollBusy P fuel s = (Ok tt, s') ->
    exists n : nat, (n < fuel)%nat /\ idleAfter P s n.
Proof.
  induction fuel as [|fuel IH]; intros s s' H; [discriminate H|].
  rewrite pollBusy_S in H.
  destruct (busy_level P (polls s)) eqn:Hl.
  - apply IH in H as (n & Hn & Hlow & Hhigh). cbn [polls record polled] in *.
    exists (S n). split; [lia|]. split.
    + intros k Hk. destruct k as [|k].
      * now rewrite Nat.add_0_r.
      * replace (polls s + S k)%nat with (S (polls s) + k)%nat by lia.
        apply Hlow. lia.
    + replace (polls s + S n)%nat with (S (polls s) + n)%nat by lia.
      exact Hhigh.
  - exists 0%nat. split; [lia|]. split; [intros k Hk; lia|].
    now rewrite Nat.add_0_r.
Qed.

Lemma waitUntilIdle_unfold (P : Panel) (fuel : nat) (s : HW) :
  waitUntilIdle P fuel s =
    match pollBusy P fuel (record (EvLog "e-paper busy") s) with
    | (Ok _, s1) =>
        (Ok tt,
         record (EvLog "e-paper busy release") (record (EvSleep 5) s1))
    | (Err e, s1) => (Err e, s1)
    | (Panic, s1) => (Panic, s1)
    | (Hang, s1) => (Hang, s1)
    end.
Proof.
  unfold waitUntilIdle, bind, logPrintln, timeSleep.
  destruct (pollBusy P fuel (record (EvLog "e-paper busy") s))
    as [[[]| | |] s1]; reflexivity.
Qed.

(** X1: [waitUntilIdle] returns exactly when the busy line comes to read
    high.  If it reads low [n] times and then high, the wait returns with
    any fuel above [n], having read the line [n + 1] times and slept 5 ms
    after each read, and no line or channel operation is attempted,
    whatever the lines would do; if the wait returns, the line did read
    high within the fuel; and it never ends in an error or a panic. *)
Theorem waitUntilIdle_returns_iff_idle (P : Panel) (s : HW) :
  (forall n fuel : nat,
     idleAfter P s n -> (n < fuel)%nat ->
     exists s' : HW,
       waitUntilIdle P fuel s = (Ok tt, s')
       /\ trace s' = trace s ++ idleWaitEvents n
       /\ ops s' = ops s)
  /\ (forall (fuel : nat) (s' : HW),
        waitUntilIdle P fuel s = (Ok tt, s') ->
        exists n : nat, (n < fuel)%nat /\ idleAfter P s n)
  /\ (forall fuel : nat,
        fst (waitUntilIdle P fuel s) = Ok tt
        \/ fst (waitUntilIdle P fuel s) = Hang).
Proof.
  split; [|split].
  - intros n fuel Hidle Hn.
    destruct (yields_waitUntilIdle P fuel n s Hidle Hn)
      as (s' & Hs & Hl & _).
    exists s'. split; [exact Hs|]. split; [now apply trace_log|].
    rewrite waitUntilIdle_unfold in Hs.
    pose proof (pollBusy_ops P fuel (record (EvLog "e-paper busy") s)) as Ho.
    destruct (pollBusy P fuel (record (EvLog "e-paper busy") s))
      as [[[]| | |] s1]; try discriminate Hs.
    injection Hs as <-. exact Ho.
  - intros fuel s' H. rewrite waitUntilIdle_unfold in H.
    destruct (pollBusy P fuel (record (EvLog "e-paper busy") s))
      as [[[]| | |] s1] eqn:Hp; try discriminate H.
    apply pollBusy_returned in Hp as (n & Hn & Hidle).
    exists n. split; [exact Hn|]. exact Hidle.
  - intros fuel. rewrite waitUntilIdle_unfold.
    pose proof (pollBusy_outcome P fuel (record (EvLog "e-paper busy") s))
      as Ho.
    destruct (pollBusy P fuel (record (EvLog "e-paper busy") s))
      as [[[]| | |] s1]; cbn [fst] in *; auto;
      destruct Ho; discriminate.
Qed.

(** ** A busy line that stays low *)

Lemma yields_halt {A B : Type} (m : M A) (f : A -> M B) (s : HW)
    (evs : list Event) (dp : nat) :
  yields m s Hang evs dp -> yields (bind m f) s Hang evs dp.
Proof.
  intros (s1 & Hm & Hl & Hp). exists s1. unfold bind. rewrite Hm. auto.
Qed.

Lemma yields_fst {A : Type} (m : M A) (s : HW) (r : Res A)
    (evs : list Event) (dp : nat) :
  yields m s r evs dp -> fst (m s) = r.
Proof. intros (s' & Hm & _). now rewrite Hm. Qed.

Lemma quiet_stuckWaitEvents (fuel : nat) :
  forallb quiet (stuckWaitEvents fuel) = true.
Proof.
  unfold stuckWaitEvents. cbn [forallb quiet andb].
  induction fuel as [|fuel IH]; [reflexivity|].
  rewrite concat_replicate_S, forallb_app. exact IH.
Qed.

Section Stuck.

Variable P : Panel.
Hypothesis Hrel : reliable P.
Hypothesis Hlow : forall k : nat, busy_level P k = Low.

Lemma yields_pollBusy_stuck (fuel : nat) :
  forall s : HW,
    yields (pollBusy P fuel) s Hang
      (concat (replicate fuel [EvRead Low; EvSleep 5])) fuel.
Proof.
  induction fuel as [|fuel IH]; intros s.
  - exists s. repeat split. simpl. lia.
  - destruct (IH (record (EvSleep 5) (record (EvRead Low) (polled s))))
      as (s' & Hs & Hl & Hp).
    exists s'. rewrite pollBusy_S, Hlow. split; [exact Hs|]. split.
    + rewrite Hl, concat_replicate_S. cbn [log record polled].
      rewrite rev_app_distr, <- app_assoc. reflexivity.
    + rewrite Hp. cbn [polls record polled]. lia.
Qed.

Lemma yields_waitUntilIdle_stuck (fuel : nat) (s : HW) :
  yields (waitUntilIdle P fuel) s Hang (stuckWaitEvents fuel) fuel.
Proof.
  unfold waitUntilIdle. eapply yields_eq.
  - eapply yields_bind; [apply yields_logPrintln|intros s1 _].
    apply yields_halt. apply yields_pollBusy_stuck.
  - reflexivity.
  - reflexivity.
Qed.

Lemma yields_turnOnDisplay_stuck (fuel : nat) (s : HW) :
  yields (turnOnDisplay P fuel) s Hang
    (commandEvents DisplayRefresh ++ EvSleep 100 :: stuckWaitEvents fuel)
    fuel.
Proof.
  unfold turnOnDisplay. eapply yields_eq.
  - eapply yields_bind; [apply (yields_sendCommand P Hrel)|intros s1 _].
    eapply yields_bind; [apply yields_timeSleep|intros s2 _].
    apply yields_waitUntilIdle_stuck.
  - reflexivity.
  - reflexivity.
Qed.

Lemma yields_Clear_stuck (fuel : nat) (s : HW) :
  yields (Clear P fuel New) s Hang
    (commandEvents DataStartTransmission1
       ++ dataRun (replicate
                     (Z.to_nat (4 * (widthByte New * heightByte New))) 0x33)
       ++ commandEvents DisplayRefresh ++ EvSleep 100 :: stuckWaitEvents fuel)
    fuel.
Proof.
  unfold Clear. eapply yields_eq.
  - eapply yields_bind; [apply (yields_sendCommand P Hrel)|intros s1 _].
    eapply yields_bind.
    + apply yields_forUpTo_data. intros j t.
      apply yields_forUpTo_data. intros i t'.
      apply (yields_forUpTo_data _ [0x33]). intros k t''.
      eapply yields_eq;
        [apply (yields_sendData P Hrel)|reflexivity|reflexivity].
    + intros s2 _. apply yields_turnOnDisplay_stuck.
  - rewrite concat_replicate_singleton, !concat_replicate_replicate.
    pose proof New_width_nonneg. pose proof New_height_nonneg.
    rewrite <- !Z2Nat.inj_mul by lia.
    replace (heightByte New * (widthByte New * 4))
      with (4 * (widthByte New * heightByte New)) by lia.
    reflexivity.
  - reflexivity.
Qed.

Lemma yields_Display_stuck (fuel : nat) (img : list Z) (s : HW) :
  length img = frameLength ->
  yields (Display P fuel New img) s Hang
    ([EvLog "Start e-paper display"]
       ++ commandEvents DataStartTransmission1
       ++ dataRun (flat_map expandByte img)
       ++ [EvLog "End e-paper display image process"]
       ++ commandEvents DisplayRefresh ++ EvSleep 100 :: stuckWaitEvents fuel)
    fuel.
Proof.
  intros Hlen. unfold Display. eapply yields_eq.
  - eapply yields_bind; [apply yields_logPrintln|intros s1 _].
    eapply yields_bind; [apply (yields_sendCommand P Hrel)|intros s2 _].
    eapply yields_bind.
    + pose proof (yields_Display_loops P Hrel New img s2
                    New_width_nonneg New_height_nonneg) as Hloops.
      change (Z.to_nat (widthByte New * heightByte New)) with frameLength
        in Hloops.
      rewrite <- Hlen, Nat.leb_refl, firstn_all in Hloops. exact Hloops.
    + intros s3 _.
      eapply yields_bind; [apply yields_logPrintln|intros s4 _].
      apply yields_halt. apply yields_turnOnDisplay_stuck.
  - reflexivity.
  - reflexivity.
Qed.

Ltac stuck_step :=
  eapply yields_bind;
  [ first [ apply (yields_sendCommand P Hrel)
          | apply (yields_sendData P Hrel)
          | apply (yields_Reset P Hrel)
          | apply yields_timeSleep
          | apply yields_logPrintln ]
  | intros ? _ ].

Lemma Init_stuck (fuel : nat) (s : HW) : fst (Init P fuel s) = Hang.
Proof.
  unfold Init. eapply yields_fst.
  do 14 stuck_step. apply yields_halt. apply yields_waitUntilIdle_stuck.
Qed.

Lemma InitFast_stuck (fuel : nat) (s : HW) : fst (InitFast P fuel s) = Hang.
Proof.
  unfold InitFast. eapply yields_fst.
  do 8 stuck_step. apply yields_halt. apply yields_waitUntilIdle_stuck.
Qed.

Lemma InitPart_stuck (fuel : nat) (s : HW) : fst (InitPart P fuel s) = Hang.
Proof.
  unfold InitPart. eapply yields_fst.
  do 5 stuck_step. apply yields_halt. apply yields_waitUntilIdle_stuck.
Qed.

Lemma Sleep_stuck (fuel : nat) (s : HW) : fst (Sleep P fuel s) = Hang.
Proof.
  unfold Sleep. eapply yields_fst.
  stuck_step. apply yields_halt. apply yields_waitUntilIdle_stuck.
Qed.

End Stuck.

Lemma exchanged_refresh_stuck (fuel : nat) (dc : Level) :
  exchanged dc
    (commandEvents DisplayRefresh ++ EvSleep 100 :: stuckWaitEvents fuel)
  = [Command DisplayRefresh].
Proof.
  cbn -[stuckWaitEvents].
  rewrite <- (app_nil_r (stuckWaitEvents fuel)).
  now rewrite (exchanged_quiet _ _ _ (quiet_stuckWaitEvents fuel)).
Qed.

Lemma exchanged_Clear_stuck (fuel : nat) (ds : list Z) (dc : Level) :
  exchanged dc
    (commandEvents DataStartTransmission1 ++ dataRun ds
       ++ commandEvents DisplayRefresh ++ EvSleep 100 :: stuckWaitEvents fuel)
  = Command DataStartTransmission1 :: map Data ds ++ [Command DisplayRefresh].
Proof.
  cbn -[dataRun stuckWaitEvents]. f_equal.
  apply exchanged_dataRun. intros dc'. apply exchanged_refresh_stuck.
Qed.

Lemma exchanged_Display_stuck (fuel : nat) (ds : list Z) (dc : Level) :
  exchanged dc
    ([EvLog "Start e-paper display"]
       ++ commandEvents DataStartTransmission1
       ++ dataRun ds
       ++ [EvLog "End e-paper display image process"]
       ++ commandEvents DisplayRefresh ++ EvSleep 100 :: stuckWaitEvents fuel)
  = Command DataStartTransmission1 :: map Data ds ++ [Command DisplayRefresh].
Proof.
  cbn -[dataRun stuckWaitEvents]. f_equal.
  apply exchanged_dataRun. intros dc'.
  apply (exchanged_refresh_stuck fuel dc').
Qed.

(** X2: on lines that do not fail and a panel whose busy line never reads
    high, no operation that waits returns, whatever the fuel. [Clear] and
    [Display] have by then put the whole frame and the display-refresh
    command on the channel; [Init], [InitFast], [InitPart] and [Sleep] are
    caught in their wait as well. *)
Theorem stuck_busy_line_hangs (P : Panel) (fuel : nat) (s : HW) :
  reliable P -> (forall k : nat, busy_level P k = Low) ->
  (exists (s' : HW) (evs : list Event),
     Clear P fuel New s = (Hang, s')
     /\ trace s' = trace s ++ evs
     /\ forall dc : Level,
          exchanged dc evs =
            Command DataStartTransmission1
              :: map Data (replicate
                             (Z.to_nat (4 * (widthByte New * heightByte New)))
                             0x33)
              ++ [Command DisplayRefresh])
  /\ (forall img : list Z,
        length img = frameLength ->
        exists (s' : HW) (evs : list Event),
          Display P fuel New img s = (Hang, s')
          /\ trace s' = trace s ++ evs
          /\ forall dc : Level,
               exchanged dc evs =
                 Command DataStartTransmission1
                   :: map Data (flat_map expandByte img)
                   ++ [Command DisplayRefresh])
  /\ fst (Init P fuel s) = Hang
  /\ fst (InitFast P fuel s) = Hang
  /\ fst (InitPart P fuel s) = Hang
  /\ fst (Sleep P fuel s) = Hang.
Proof.
  intros Hrel Hlow. split; [|split].
  - destruct (yields_run _ _ _ _ _ (yields_Clear_stuck P Hrel Hlow fuel s))
      as (s' & Hs & Ht).
    eexists s', _. split; [exact Hs|]. split; [exact Ht|].
    intros dc. apply exchanged_Clear_stuck.
  - intros img Hlen.
    destruct (yields_run _ _ _ _ _
                (yields_Display_stuck P Hrel Hlow fuel img s Hlen))
      as (s' & Hs & Ht).
    eexists s', _. split; [exact Hs|]. split; [exact Ht|].
    intros dc. apply exchanged_Display_stuck.
  - repeat split.
    + now apply Init_stuck.
    + now apply InitFast_stuck.
    + now apply InitPart_stuck.
    + now apply Sleep_stuck.
Qed.

Lemma stuck_busy_line_hangs_witness :
  (exists (s' : HW) (evs : list Event),
     Clear stuck 7 New hw0 = (Hang, s')
     /\ trace s' = trace hw0 ++ evs
     /\ forall dc : Level,
          exchanged dc evs =
            Command DataStartTransmission1
              :: map Data (replicate
                             (Z.to_nat (4 * (widthByte New * heightByte New)))
                             0x33)
              ++ [Command DisplayRefresh])
  /\ (forall img : list Z,
        length img = frameLength ->
        exists (s' : HW) (evs : list Event),
          Display stuck 7 New img hw0 = (Hang, s')
          /\ trace s' = trace hw0 ++ evs
          /\ forall dc : Level,
               exchanged dc evs =
                 Command DataStartTransmission1
                   :: map Data (flat_map expandByte img)
                   ++ [Command DisplayRefresh])
  /\ fst (Init stuck 7 hw0) = Hang
  /\ fst (InitFast stuck 7 hw0) = Hang
  /\ fst (InitPart stuck 7 hw0) = Hang
  /\ fst (Sleep stuck 7 hw0) = Hang.
Proof.
  apply (stuck_busy_line_hangs stuck 7 hw0).
  - intros k. reflexivity.
  - intros k. reflexivity.
Defined.

(** ** [Init] and [Sleep] *)

Lemma wire_initEvents (n : nat) :
  wire (initEvents n) =
    [Command PowerSetting; Data 0x07; Data 0x07; Data 0x3f; Data 0x3f;
     Command 0x06; Data 0x17; Data 0x17; Data 0x28; Data 0x17;
     Command 0x04;
     Command PanelSetting; Data 0x1F;
     Command 0x61;
     Data (Epd7in5V2Width / 256); Data (Epd7in5V2Width mod 256);
     Data (Epd7in5V2Height / 256); Data (Epd7in5V2Height mod 256);
     Command 0x15; Data 0x00;
     Command 0x50; Data 0x10; Data 0x07;
     Command 0x60; Data 0x22].
Proof.
  unfold wire, initEvents. cbn -[idleWaitEvents].
  rewrite (exchanged_quiet _ _ _ (quiet_idleWaitEvents n)). reflexivity.
Qed.

Lemma wire_sleepEvents (n : nat) :
  wire (sleepEvents n) = [Command PowerOff; Command DeepSleep; Data 0xA5].
Proof.
  unfold wire, sleepEvents. cbn -[idleWaitEvents].
  rewrite (exchanged_quiet _ _ _ (quiet_idleWaitEvents n)). reflexivity.
Qed.

Section InitSleep.

Variable P : Panel.
Hypothesis Hrel : reliable P.

Ltac run_step :=
  eapply yields_bind;
  [ first [ apply (yields_sendCommand P Hrel)
          | apply (yields_sendData P Hrel)
          | apply (yields_Reset P Hrel)
          | apply yields_timeSleep
          | apply yields_logPrintln ]
  | intros ? ? ].

Ltac run_wait Hidle Hn :=
  eapply yields_bind;
  [ eapply yields_waitUntilIdle;
    [ eapply idleAfter_polls; [|exact Hidle]; lia | exact Hn ]
  | intros ? ? ].

Lemma yields_Init (fuel n : nat) (s : HW) :
  idleAfter P s n -> (n < fuel)%nat ->
  yields (Init P fuel) s (Ok tt) (initEvents n) (S n).
Proof.
  intros Hidle Hn. unfold Init. eapply yields_eq.
  - do 14 run_step. run_wait Hidle Hn. do 13 run_step.
    apply (yields_sendData P Hrel).
  - reflexivity.
  - lia.
Qed.

Lemma yields_Sleep (fuel n : nat) (s : HW) :
  idleAfter P s n -> (n < fuel)%nat ->
  yields (Sleep P fuel) s (Ok tt) (sleepEvents n) (S n).
Proof.
  intros Hidle Hn. unfold Sleep. eapply yields_eq.
  - run_step. run_wait Hidle Hn. run_step. apply (yields_sendData P Hrel).
  - reflexivity.
  - lia.
Qed.

End InitSleep.

(** X3: on lines that do not fail and a panel that comes idle, [Init]
    logs, pulses the reset line and then puts on the channel the power
    setting, the command 0x06 and its data, the power-on command 0x04 (the
    one wait on the busy line follows it), the panel setting, the
    resolution command 0x61 and the commands 0x15, 0x50 and 0x60 with their
    data; the four data bytes of the resolution command are the width and
    the height of the panel, high byte first. *)
Theorem Init_trace (P : Panel) (fuel n : nat) (s : HW) :
  reliable P -> idleAfter P s n -> (n < fuel)%nat ->
  exists (s' : HW) (evs : list Event),
    Init P fuel s = (Ok tt, s')
    /\ trace s' = trace s ++ [EvLog "e-paper init"] ++ resetEvents ++ evs
    /\ wire evs =
         [Command PowerSetting; Data 0x07; Data 0x07; Data 0x3f; Data 0x3f;
          Command 0x06; Data 0x17; Data 0x17; Data 0x28; Data 0x17;
          Command 0x04;
          Command PanelSetting; Data 0x1F;
          Command 0x61;
          Data (Epd7in5V2Width / 256); Data (Epd7in5V2Width mod 256);
          Data (Epd7in5V2Height / 256); Data (Epd7in5V2Height mod 256);
          Command 0x15; Data 0x00;
          Command 0x50; Data 0x10; Data 0x07;
          Command 0x60; Data 0x22]
    /\ (exists pre post : list Event,
          evs = pre ++ commandEvents 0x04 ++ [EvSleep 100]
                  ++ idleWaitEvents n ++ post
          /\ forallb (fun ev => match ev with EvRead _ => false | _ => true end)
               (pre ++ post) = true).
Proof.
  intros Hrel Hidle Hn.
  destruct (yields_run _ _ _ _ _ (yields_Init P Hrel fuel n s Hidle Hn))
    as (s' & Hs & Ht).
  eexists s', _. split; [exact Hs|]. split; [exact Ht|]. split.
  - apply (wire_initEvents n).
  - eexists
      (commandEvents PowerSetting ++ dataEvents 0x07 ++ dataEvents 0x07
         ++ dataEvents 0x3f ++ dataEvents 0x3f ++ commandEvents 0x06
         ++ dataEvents 0x17 ++ dataEvents 0x17 ++ dataEvents 0x28
         ++ dataEvents 0x17), _.
    split.
    + rewrite <- !app_assoc. reflexivity.
    + reflexivity.
Qed.

Lemma Init_trace_witness :
  exists (s' : HW) (evs : list Event),
    Init slow 4 hw0 = (Ok tt, s')
    /\ trace s' = trace hw0 ++ [EvLog "e-paper init"] ++ resetEvents ++ evs
    /\ wire evs =
         [Command PowerSetting; Data 0x07; Data 0x07; Data 0x3f; Data 0x3f;
          Command 0x06; Data 0x17; Data 0x17; Data 0x28; Data 0x17;
          Command 0x04;
          Command PanelSetting; Data 0x1F;
          Command 0x61;
          Data (Epd7in5V2Width / 256); Data (Epd7in5V2Width mod 256);
          Data (Epd7in5V2Height / 256); Data (Epd7in5V2Height mod 256);
          Command 0x15; Data 0x00;
          Command 0x50; Data 0x10; Data 0x07;
          Command 0x60; Data 0x22]
    /\ (exists pre post : list Event,
          evs = pre ++ commandEvents 0x04 ++ [EvSleep 100]
                  ++ idleWaitEvents 3 ++ post
          /\ forallb (fun ev => match ev with EvRead _ => false | _ => true end)
               (pre ++ post) = true).
Proof.
  apply (Init_trace slow 4 3 hw0).
  - intros k. reflexivity.
  - apply slow_idleAfter. reflexivity.
  - lia.
Defined.

(** X4: on lines that do not fail and a panel that comes idle, [Sleep]
    sends the power-off command, waits on the busy line, and only then
    sends the deep-sleep command and its check byte 0xA5; it does not
    touch the reset line. *)
Theorem Sleep_trace (P : Panel) (fuel n : nat) (s : HW) :
  reliable P -> idleAfter P s n -> (n < fuel)%nat ->
  exists s' : HW,
    Sleep P fuel s = (Ok tt, s')
    /\ trace s' =
         trace s ++ commandEvents PowerOff ++ idleWaitEvents n
           ++ commandEvents DeepSleep ++ dataEvents 0xA5
    /\ wire (commandEvents PowerOff ++ idleWaitEvents n
               ++ commandEvents DeepSleep ++ dataEvents 0xA5)
       = [Command PowerOff; Command DeepSleep; Data 0xA5].
Proof.
  intros Hrel Hidle Hn.
  destruct (yields_run _ _ _ _ _ (yields_Sleep P Hrel fuel n s Hidle Hn))
    as (s' & Hs & Ht).
  exists s'. split; [exact Hs|]. split; [exact Ht|].
  apply (wire_sleepEvents n).
Qed.

Lemma Sleep_trace_witness :
  exists s' : HW,
    Sleep slow 4 hw0 = (Ok tt, s')
    /\ trace s' =
         trace hw0 ++ commandEvents PowerOff ++ idleWaitEvents 3
           ++ commandEvents DeepSleep ++ dataEvents 0xA5
    /\ wire (commandEvents PowerOff ++ idleWaitEvents 3
               ++ commandEvents DeepSleep ++ dataEvents 0xA5)
       = [Command PowerOff; Command DeepSleep; Data 0xA5].
Proof.
  apply (Sleep_trace slow 4 3 hw0).
  - intros k. reflexivity.
  - apply slow_idleAfter. reflexivity.
  - lia.
Defined.

(** ** Failures of the lines and the channel *)

Section Stops.

Variable P : Panel.

Lemma stops_ret {A : Type} (a : A) : stopsAtFailure P (ret a).
Proof.
  intros s s' r H. injection H as <- <-. split; [lia|]. intros i Hi. lia.
Qed.

Lemma stops_bind {A B : Type} (m : M A) (f : A -> M B) :
  stopsAtFailure P m -> (forall a : A, stopsAtFailure P (f a)) ->
  stopsAtFailure P (bind m f).
Proof.
  intros Hm Hf s s' r H. unfold bind in H.
  destruct (m s) as [rm s1] eqn:Em. destruct (Hm _ _ _ Em) as [Hle Hrm].
  destruct rm as [a|e| |].
  - destruct (Hf a _ _ _ H) as [Hle' Hr]. split; [lia|].
    destruct r as [b|[k]| |].
    + intros i Hi. destruct (Nat.lt_ge_cases i (ops s1)); auto with lia.
    + destruct Hr as (Hk & Hk1 & Hfail & Hbefore).
      repeat split; [exact Hk|lia|exact Hfail|].
      intros i Hi. destruct (Nat.lt_ge_cases i (ops s1)); auto with lia.
    + intros i Hi. destruct (Nat.lt_ge_cases i (ops s1)); auto with lia.
    + intros i Hi. destruct (Nat.lt_ge_cases i (ops s1)); auto with lia.
  - injection H as <- <-. split; [exact Hle|exact Hrm].
  - injection H as <- <-. split; [exact Hle|exact Hrm].
  - injection H as <- <-. split; [exact Hle|exact Hrm].
Qed.

Lemma stops_io (ev : Event) : stopsAtFailure P (io P ev).
Proof.
  intros s s' r H. unfold io in H.
  destruct (io_fails P (ops s)) eqn:Hf; injection H as <- <-;
    cbn [ops attempt record].
  - split; [lia|]. repeat split; [lia|exact Hf|]. intros i Hi. lia.
  - split; [lia|]. intros i Hi. replace i with (ops s) by lia. exact Hf.
Qed.

(** A step that attempts no line or channel operation and gives no
    error. *)
Lemma stops_silent {A : Type} (m : M A) :
  (forall s : HW,
     ops (snd (m s)) = ops s /\ forall e : error, fst (m s) <> Err e) ->
  stopsAtFailure P m.
Proof.
  intros Hm s s' r H. destruct (Hm s) as [Ho Hne]. rewrite H in Ho, Hne.
  cbn [fst snd] in Ho, Hne. split; [lia|].
  destruct r as [a|e| |]; try (intros i Hi; lia).
  now destruct (Hne e).
Qed.

Lemma stops_timeSleep (ms : Z) : stopsAtFailure P (timeSleep ms).
Proof. apply stops_silent. intros s. split; [reflexivity|discriminate]. Qed.

Lemma stops_logPrintln (msg : string) : stopsAtFailure P (logPrintln msg).
Proof. apply stops_silent. intros s. split; [reflexivity|discriminate]. Qed.

Lemma stops_busyRead : stopsAtFailure P (busyRead P).
Proof. apply stops_silent. intros s. split; [reflexivity|discriminate]. Qed.

Lemma stops_index (img : list Z) (i : Z) : stopsAtFailure P (index img i).
Proof.
  apply stops_silent. intros s. unfold index.
  destruct (i <? 0); [split; [reflexivity|discriminate]|].
  destruct (img !! Z.to_nat i); split; try reflexivity; discriminate.
Qed.

Lemma stops_hang {A : Type} : stopsAtFailure P (@hang A).
Proof. apply stops_silent. intros s. split; [reflexivity|discriminate]. Qed.

Lemma stops_forFrom (body : Z -> M unit) (count : nat) :
  (forall i : Z, stopsAtFailure P (body i)) ->
  forall i : Z, stopsAtFailure P (forFrom count i body).
Proof.
  intros Hbody. induction count as [|count IH]; intros i.
  - apply stops_ret.
  - cbn [forFrom]. apply stops_bind; [apply Hbody|intros _; apply IH].
Qed.

Lemma stops_forUpTo (body : Z -> M unit) (n : Z) :
  (forall i : Z, stopsAtFailure P (body i)) ->
  stopsAtFailure P (forUpTo n body).
Proof. intros Hbody. now apply stops_forFrom. Qed.

Lemma stops_pollBusy (fuel : nat) : stopsAtFailure P (pollBusy P fuel).
Proof.
  induction fuel as [|fuel IH]; [apply stops_hang|].
  cbn [pollBusy]. apply stops_bind; [apply stops_busyRead|].
  intros [|]; [|apply stops_ret].
  apply stops_bind; [apply stops_timeSleep|intros _; exact IH].
Qed.

Create HintDb stops.

#[local] Hint Resolve stops_ret stops_io stops_timeSleep stops_logPrintln
  stops_busyRead stops_index stops_hang stops_pollBusy stops_forUpTo : stops.

Ltac stops :=
  repeat first
    [ solve [auto with stops]
    | apply stops_forUpTo; intros ?
    | apply stops_bind; [|intros ?] ].

Lemma stops_sendCommand (b : Z) : stopsAtFailure P (sendCommand P b).
Proof. unfold sendCommand, pinOut, connTx. stops. Qed.

Lemma stops_sendData (b : Z) : stopsAtFailure P (sendData P b).
Proof. unfold sendData, pinOut, connTx. stops. Qed.

Lemma stops_waitUntilIdle (fuel : nat) :
  stopsAtFailure P (waitUntilIdle P fuel).
Proof. unfold waitUntilIdle. stops. Qed.

Lemma stops_Reset : stopsAtFailure P (Reset P).
Proof. unfold Reset, pinOut. stops. Qed.

#[local] Hint Resolve stops_sendCommand stops_sendData stops_waitUntilIdle
  stops_Reset : stops.

Lemma stops_turnOnDisplay (fuel : nat) :
  stopsAtFailure P (turnOnDisplay P fuel).
Proof. unfold turnOnDisplay. stops. Qed.

#[local] Hint Resolve stops_turnOnDisplay : stops.

Lemma stops_displayBits (trips : nat) :
  forall k d : Z, stopsAtFailure P (displayBits P trips k d).
Proof.
  induction trips as [|trips IH]; intros k d; cbn [displayBits].
  - destruct (k <? 8); auto with stops.
  - destruct (k <? 8); [|apply stops_ret].
    apply stops_bind; [apply stops_sendData|intros _; apply IH].
Qed.

#[local] Hint Resolve stops_displayBits : stops.

Lemma stops_call (fuel : nat) (e : Epd) (c : Call) :
  stopsAtFailure P (call P fuel e c).
Proof.
  destruct c as [| | | | |img|]; cbn [call].
  - apply stops_Reset.
  - unfold Init. stops.
  - unfold InitFast. stops.
  - unfold InitPart. stops.
  - unfold Clear. stops.
  - unfold Display. stops.
  - unfold Sleep. stops.
Qed.

(** The transfer of one byte when the operation [j] is the first to
    fail. *)
Lemma transfer_fails (dc : Level) (b : Z) (s : HW) (j : nat) :
  (j < 4)%nat ->
  (forall i : nat, (i < j)%nat -> io_fails P (ops s + i) = false) ->
  io_fails P (ops s + j) = true ->
  exists s' : HW,
    (pinOut P DC dc >>> pinOut P CS Low >>> connTx P [b]
       >>> pinOut P CS High) s = (Err (IoError (ops s + j)), s')
    /\ trace s' =
         trace s
           ++ take j [EvOut DC dc; EvOut CS Low; EvTx [b]; EvOut CS High].
Proof.
  intros Hj Hok Hfail. unfold pinOut, connTx, bind, io.
  destruct j as [|[|[|[|j]]]]; [| | | |lia].
  - rewrite Nat.add_0_r in Hfail. rewrite Hfail.
    eexists. split; [rewrite Nat.add_0_r; reflexivity|].
    unfold trace. cbn. now rewrite app_nil_r.
  - pose proof (Hok 0%nat ltac:(lia)) as H0. rewrite Nat.add_0_r in H0.
    replace (ops s + 1)%nat with (S (ops s)) in * by lia.
    rewrite H0. cbn [ops attempt record]. rewrite Hfail.
    eexists. split; reflexivity.
  - pose proof (Hok 0%nat ltac:(lia)) as H0. rewrite Nat.add_0_r in H0.
    pose proof (Hok 1%nat ltac:(lia)) as H1.
    replace (ops s + 1)%nat with (S (ops s)) in * by lia.
    replace (ops s + 2)%nat with (S (S (ops s))) in * by lia.
    rewrite H0. cbn [ops attempt record]. rewrite H1.
    cbn [ops attempt record]. rewrite Hfail.
    eexists. split; [reflexivity|]. unfold trace. cbn.
    rewrite <- app_assoc. reflexivity.
  - pose proof (Hok 0%nat ltac:(lia)) as H0. rewrite Nat.add_0_r in H0.
    pose proof (Hok 1%nat ltac:(lia)) as H1.
    pose proof (Hok 2%nat ltac:(lia)) as H2.
    replace (ops s + 1)%nat with (S (ops s)) in * by lia.
    replace (ops s + 2)%nat with (S (S (ops s))) in * by lia.
    replace (ops s + 3)%nat with (S (S (S (ops s)))) in * by lia.
    rewrite H0. cbn [ops attempt record]. rewrite H1.
    cbn [ops attempt record]. rewrite H2. cbn [ops attempt record].
    rewrite Hfail.
    eexists. split; [reflexivity|]. unfold trace. cbn.
    rewrite <- !app_assoc. reflexivity.
Qed.

End Stops.

(** X5: every operation of the controller stops at the first line or
    channel operation that fails.  An error it returns is the error of the
    last operation it attempted, the panel did fail that operation, and
    all the operations attempted before succeeded; when it ends otherwise
    (it returns, panics or is caught in the wait) no operation it
    attempted had failed.  No failure is retried or passed over. *)
Theorem operations_stop_at_first_failure (P : Panel) (fuel : nat) (e : Epd)
    (c : Call) (s s' : HW) (r : Res unit) :
  call P fuel e c s = (r, s') ->
  (ops s <= ops s')%nat
  /\ match r with
     | Err (IoError k) =>
         ops s' = S k /\ (ops s <= k)%nat /\ io_fails P k = true
         /\ forall i : nat, (ops s <= i < k)%nat -> io_fails P i = false
     | _ =>
         forall i : nat, (ops s <= i < ops s')%nat -> io_fails P i = false
     end.
Proof. apply stops_call. Qed.

Lemma operations_stop_at_first_failure_witness :
  (ops hw0 <= ops (mkHW [EvSleep 2; EvOut RST Low; EvSleep 20; EvOut RST High]
                     3 0))%nat
  /\ (ops (mkHW [EvSleep 2; EvOut RST Low; EvSleep 20; EvOut RST High] 3 0)
      = 3%nat
      /\ (ops hw0 <= 2)%nat /\ io_fails thirdFails 2 = true
      /\ forall i : nat,
           (ops hw0 <= i < 2)%nat -> io_fails thirdFails i = false).
Proof.
  apply (operations_stop_at_first_failure thirdFails 1 New CallReset hw0
           (mkHW [EvSleep 2; EvOut RST Low; EvSleep 20; EvOut RST High] 3 0)
           (Err (IoError 2))).
  reflexivity.
Defined.

(** X6: when the operation [j] of the four of a transfer is the first to
    fail, [sendCommand] and [sendData] return its error and have done
    exactly the [j] operations before it.  So a failed exchange (j = 2)
    leaves chip-select low, and a failed release of chip-select (j = 3) is
    reported although the byte went out. *)
Theorem transfer_stops_where_it_fails (P : Panel) (b : Z) (s : HW) (j : nat) :
  (j < 4)%nat ->
  (forall i : nat, (i < j)%nat -> io_fails P (ops s + i) = false) ->
  io_fails P (ops s + j) = true ->
  (exists s' : HW,
     sendCommand P b s = (Err (IoError (ops s + j)), s')
     /\ trace s' =
          trace s
            ++ take j [EvOut DC Low; EvOut CS Low; EvTx [b]; EvOut CS High])
  /\ (exists s' : HW,
        sendData P b s = (Err (IoError (ops s + j)), s')
        /\ trace s' =
             trace s
               ++ take j
                    [EvOut DC High; EvOut CS Low; EvTx [b]; EvOut CS High]).
Proof.
  intros Hj Hok Hfail. split.
  - exact (transfer_fails P Low b s j Hj Hok Hfail).
  - exact (transfer_fails P High b s j Hj Hok Hfail).
Qed.

Lemma transfer_stops_where_it_fails_witness :
  (exists s' : HW,
     sendCommand thirdFails 0x12 hw0 = (Err (IoError (ops hw0 + 2)), s')
     /\ trace s' =
          trace hw0
            ++ take 2
                 [EvOut DC Low; EvOut CS Low; EvTx [0x12]; EvOut CS High])
  /\ (exists s' : HW,
        sendData thirdFails 0x12 hw0 = (Err (IoError (ops hw0 + 2)), s')
        /\ trace s' =
             trace hw0
               ++ take 2
                    [EvOut DC High; EvOut CS Low; EvTx [0x12];
                     EvOut CS High]).
Proof.
  apply (transfer_stops_where_it_fails thirdFails 0x12 hw0 2).
  - lia.
  - intros i Hi. destruct i as [|[|i]]; [reflexivity|reflexivity|lia].
  - reflexivity.
Defined.

(** ** What the operations put on the lines, whatever fails *)

Lemma adds_trace {A : Type} (Q : Event -> Prop) (m : M A) (s : HW) :
  adds Q m ->
  exists evs : list Event,
    trace (snd (m s)) = trace s ++ evs /\ Forall Q evs.
Proof.
  intros H. destruct (H s) as (evs & Hl & HQ). exists evs.
  split; [now apply trace_log|exact HQ].
Qed.

Lemma adds_none {A : Type} (Q : Event -> Prop) (m : M A) :
  (forall s : HW, snd (m s) = s) -> adds Q m.
Proof. intros H s. exists []. rewrite H. split; [reflexivity|constructor]. Qed.

Lemma adds_one {A : Type} (Q : Event -> Prop) (m : M A) (ev : Event) :
  Q ev -> (forall s : HW, log (snd (m s)) = ev :: log s) -> adds Q m.
Proof.
  intros HQ H s. exists [ev]. rewrite H.
  split; [reflexivity|]. constructor; [exact HQ|constructor].
Qed.

Lemma adds_bind {A B : Type} (Q : Event -> Prop) (m : M A) (f : A -> M B) :
  adds Q m -> (forall a : A, adds Q (f a)) -> adds Q (bind m f).
Proof.
  intros Hm Hf s. destruct (Hm s) as (e1 & Hl1 & HQ1). unfold bind.
  destruct (m s) as [[a|e| |] s1]; cbn [snd] in *;
    try (exists e1; split; [exact Hl1|exact HQ1]).
  destruct (Hf a s1) as (e2 & Hl2 & HQ2). exists (e1 ++ e2). split.
  - rewrite Hl2, Hl1, rev_app_distr, app_assoc. reflexivity.
  - apply Forall_app. split; assumption.
Qed.

Section Adds.

Variable P : Panel.
Variable Q : Event -> Prop.

Hypothesis Qsleep : forall ms : Z, Q (EvSleep ms).
Hypothesis Qlog : forall msg : string, Q (EvLog msg).
Hypothesis Qread : forall l : Level, Q (EvRead l).
Hypothesis Qdc : forall l : Level, Q (EvOut DC l).
Hypothesis Qcs : forall l : Level, Q (EvOut CS l).

Lemma adds_io (ev : Event) : Q ev -> adds Q (io P ev).
Proof.
  intros HQ s. unfold io. destruct (io_fails P (ops s)).
  - exists []. split; [reflexivity|constructor].
  - exists [ev]. split; [reflexivity|]. constructor; [exact HQ|constructor].
Qed.

Lemma adds_timeSleep (ms : Z) : adds Q (timeSleep ms).
Proof. apply (adds_one Q _ (EvSleep ms)); [apply Qsleep|reflexivity]. Qed.

Lemma adds_logPrintln (msg : string) : adds Q (logPrintln msg).
Proof. apply (adds_one Q _ (EvLog msg)); [apply Qlog|reflexivity]. Qed.

Lemma adds_busyRead : adds Q (busyRead P).
Proof.
  intros s. exists [EvRead (busy_level P (polls s))].
  split; [reflexivity|]. constructor; [apply Qread|constructor].
Qed.

Lemma adds_ret {A : Type} (a : A) : adds Q (ret a).
Proof. now apply adds_none. Qed.

Lemma adds_index (img : list Z) (i : Z) : adds Q (index img i).
Proof.
  apply adds_none. intros s. unfold index.
  destruct (i <? 0); [reflexivity|]. now destruct (img !! Z.to_nat i).
Qed.

Lemma adds_forUpTo (body : Z -> M unit) (n : Z) :
  (forall i : Z, adds Q (body i)) -> adds Q (forUpTo n body).
Proof.
  intros Hbody. unfold forUpTo. generalize 0.
  induction (Z.to_nat n) as [|count IH]; intros i.
  - apply adds_ret.
  - cbn [forFrom]. apply adds_bind; [apply Hbody|intros _; apply IH].
Qed.

Lemma adds_pollBusy (fuel : nat) : adds Q (pollBusy P fuel).
Proof.
  induction fuel as [|fuel IH]; [now apply adds_none|].
  cbn [pollBusy]. apply adds_bind; [apply adds_busyRead|].
  intros [|]; [|apply adds_ret].
  apply adds_bind; [apply adds_timeSleep|intros _; exact IH].
Qed.

Lemma adds_waitUntilIdle (fuel : nat) : adds Q (waitUntilIdle P fuel).
Proof.
  unfold waitUntilIdle.
  apply adds_bind; [apply adds_logPrintln|intros _].
  apply adds_bind; [apply adds_pollBusy|intros _].
  apply adds_bind; [apply adds_timeSleep|intros _].
  apply adds_logPrintln.
Qed.

Lemma adds_sendCommand (b : Z) : Q (EvTx [b]) -> adds Q (sendCommand P b).
Proof.
  intros Hb. unfold sendCommand, pinOut, connTx.
  repeat (apply adds_bind; [|intros _]); apply adds_io; auto.
Qed.

Lemma adds_sendData (b : Z) : Q (EvTx [b]) -> adds Q (sendData P b).
Proof.
  intros Hb. unfold sendData, pinOut, connTx.
  repeat (apply adds_bind; [|intros _]); apply adds_io; auto.
Qed.

Lemma adds_turnOnDisplay (fuel : nat) :
  Q (EvTx [DisplayRefresh]) -> adds Q (turnOnDisplay P fuel).
Proof.
  intros Hb. unfold turnOnDisplay.
  apply adds_bind; [now apply adds_sendCommand|intros _].
  apply adds_bind; [apply adds_timeSleep|intros _].
  apply adds_waitUntilIdle.
Qed.

Lemma adds_displayBits (trips : nat) :
  (forall b : Z, In b [0x00; 0x03; 0x30; 0x33] -> Q (EvTx [b])) ->
  forall k d : Z, adds Q (displayBits P trips k d).
Proof.
  intros Hb. induction trips as [|trips IH]; intros k d; cbn [displayBits].
  - destruct (k <? 8); now apply adds_none.
  - destruct (k <? 8); [|apply adds_ret].
    apply adds_bind; [|intros _; apply IH].
    apply adds_sendData. apply Hb. unfold nibbleOf.
    destruct (_ >? 0), (_ >? 0); vm_compute; auto.
Qed.

End Adds.

(** X7: whatever the panel, the geometry, the buffer and the fuel, and
    however the run ends, [Display] only adds events to the trace, never
    writes to the reset line, and every exchange it makes carries one
    byte: the data-start command, the display-refresh command or one of
    the data bytes 0x00, 0x03, 0x30, 0x33. *)
Theorem Display_exchanges_only_codes (P : Panel) (fuel : nat) (e : Epd)
    (img : list Z) (s : HW) :
  exists evs : list Event,
    trace (snd (Display P fuel e img s)) = trace s ++ evs
    /\ Forall
         (fun ev =>
            sparesReset ev
            /\ exchangesOnly
                 [DataStartTransmission1; DisplayRefresh;
                  0x00; 0x03; 0x30; 0x33] ev)
         evs.
Proof.
  apply adds_trace. unfold Display.
  assert (Hb : forall b : Z,
             In b [DataStartTransmission1; DisplayRefresh; 0x00; 0x03; 0x30;
                   0x33] ->
             sparesReset (EvTx [b])
             /\ exchangesOnly
                  [DataStartTransmission1; DisplayRefresh; 0x00; 0x03; 0x30;
                   0x33] (EvTx [b]))
    by (intros b Hb; split; [exact I|exact Hb]).
  apply adds_bind; [apply adds_logPrintln; split; exact I|intros _].
  apply adds_bind.
  { apply adds_sendCommand; try (intros; split; exact I).
    apply Hb. cbn. auto. }
  intros _. apply adds_bind.
  { apply adds_forUpTo; try (intros; split; exact I). intros j.
    apply adds_forUpTo; try (intros; split; exact I). intros i.
    apply adds_bind; [apply adds_index|intros b].
    apply adds_displayBits; try (intros; split; exact I).
    intros d Hd. apply Hb. cbn in Hd |- *. tauto. }
  intros _. apply adds_bind; [apply adds_logPrintln; split; exact I|intros _].
  apply adds_bind; [|intros _; apply adds_logPrintln; split; exact I].
  apply adds_turnOnDisplay; try (intros; split; exact I).
  apply Hb. cbn. auto.
Qed.

(** X8: whatever the panel, the geometry and the fuel, and however the
    run ends, [Clear] and [Sleep] only add events to the trace and never
    write to the reset line; [Clear] exchanges only the data-start
    command, the filler 0x33 and the display-refresh command, [Sleep] only
    the power-off command, the deep-sleep command and the byte 0xA5, one
    byte an exchange. *)
Theorem Clear_Sleep_exchange_only_their_bytes (P : Panel) (fuel : nat)
    (e : Epd) (s : HW) :
  (exists evs : list Event,
     trace (snd (Clear P fuel e s)) = trace s ++ evs
     /\ Forall
          (fun ev =>
             sparesReset ev
             /\ exchangesOnly [DataStartTransmission1; 0x33; DisplayRefresh]
                  ev)
          evs)
  /\ (exists evs : list Event,
        trace (snd (Sleep P fuel s)) = trace s ++ evs
        /\ Forall
             (fun ev =>
                sparesReset ev
                /\ exchangesOnly [PowerOff; DeepSleep; 0xA5] ev)
             evs).
Proof.
  split; apply adds_trace.
  - unfold Clear. apply adds_bind.
    { apply adds_sendCommand; try (intros; split; exact I).
      split; [exact I|cbn; auto]. }
    intros _. apply adds_bind.
    { apply adds_forUpTo; try (intros; split; exact I). intros j.
      apply adds_forUpTo; try (intros; split; exact I). intros i.
      apply adds_forUpTo; try (intros; split; exact I). intros k.
      apply adds_sendData; try (intros; split; exact I).
      split; [exact I|cbn; auto]. }
    intros _. apply adds_turnOnDisplay; try (intros; split; exact I).
    split; [exact I|cbn; auto].
  - unfold Sleep. apply adds_bind.
    { apply adds_sendCommand; try (intros; split; exact I).
      split; [exact I|cbn; auto]. }
    intros _. apply adds_bind.
    { apply adds_waitUntilIdle; intros; split; exact I. }
    intros _. apply adds_bind.
    { apply adds_sendCommand; try (intros; split; exact I).
      split; [exact I|cbn; auto]. }
    intros _. apply adds_sendData; try (intros; split; exact I).
    split; [exact I|cbn; auto].
Qed.

(** ** More on [Convert] *)

Lemma fmap_seqZ_const (f : Z -> Z) (c : Z) (n : nat) :
  forall a : Z,
    (forall k : Z, a <= k < a + Z.of_nat n -> f k = c) ->
    f <$> seqZ a (Z.of_nat n) = replicate n c.
Proof.
  induction n as [|n IH]; intros a H; [reflexivity|].
  rewrite seqZ_cons by lia.
  replace (Z.pred (Z.of_nat (S n))) with (Z.of_nat n) by lia.
  cbn [fmap list_fmap replicate]. f_equal.
  - apply H. lia.
  - apply IH. intros k Hk. apply H. lia.
Qed.

Lemma fmap_seqZ_ext (f g : Z -> Z) (n : nat) :
  forall a : Z,
    (forall k : Z, a <= k < a + Z.of_nat n -> f k = g k) ->
    f <$> seqZ a (Z.of_nat n) = g <$> seqZ a (Z.of_nat n).
Proof.
  induction n as [|n IH]; intros a H; [reflexivity|].
  rewrite seqZ_cons by lia.
  replace (Z.pred (Z.of_nat (S n))) with (Z.of_nat n) by lia.
  cbn [fmap list_fmap]. f_equal.
  - apply H. lia.
  - apply IH. intros k Hk. apply H. lia.
Qed.

(** The row and the byte of a row of the index [k] of the frame. *)
Lemma frame_index (k : Z) :
  0 <= k < widthByte New * heightByte New ->
  0 <= k mod widthByte New < 100 /\ 0 <= k / widthByte New < 480.
Proof.
  change (widthByte New) with 100. change (heightByte New) with 480.
  intros Hk. split.
  - apply Z.mod_pos_bound. lia.
  - split; [apply Z.div_pos; lia|apply Z.div_lt_upper_bound; lia].
Qed.

Lemma frame_ext (img1 img2 : Img.Image) :
  (forall i j : Z, onPanel i j -> white img1 i j = white img2 i j) ->
  frame img1 = frame img2.
Proof.
  intros H. unfold frame, frameOn.
  rewrite <- (Z2Nat.id (widthByte New * heightByte New))
    by (vm_compute; discriminate).
  apply fmap_seqZ_ext. intros k Hk.
  rewrite Z2Nat.id in Hk by (vm_compute; discriminate).
  destruct (frame_index k ltac:(lia)) as [Hc Hj].
  unfold frameByte. rewrite !rowByte_white by lia. cbn [fold_left].
  unfold onPanel, Epd7in5V2Width, Epd7in5V2Height in H.
  rewrite !H by lia. reflexivity.
Qed.

Lemma frame_uniform (img : Img.Image) (v : bool) :
  (forall i j : Z, onPanel i j -> white img i j = v) ->
  frame img = replicate frameLength (if v then 0xFF else 0x00).
Proof.
  intros H. unfold frame, frameOn, frameLength.
  rewrite <- (Z2Nat.id (widthByte New * heightByte New)) at 1
    by (vm_compute; discriminate).
  apply fmap_seqZ_const. intros k Hk.
  rewrite Z2Nat.id in Hk by (vm_compute; discriminate).
  destruct (frame_index k ltac:(lia)) as [Hc Hj].
  unfold frameByte. rewrite rowByte_white by lia. cbn [fold_left].
  unfold onPanel, Epd7in5V2Width, Epd7in5V2Height in H.
  rewrite !H by lia. now destruct v.
Qed.

(** X9: when every pixel of the panel comes out white for the image, as
    for an image without pixels, [Convert] returns the buffer of
    bytes-per-row x rows bytes 0xFF; when every pixel comes out black, the
    buffer of bytes 0x00. *)
Theorem Convert_uniform (img : Img.Image) (v : bool) :
  (forall i j : Z, onPanel i j -> white img i j = v) ->
  Convert New img
  = Some (replicate frameLength (if v then 0xFF else 0x00)).
Proof.
  intros H. rewrite Convert_frame. now rewrite (frame_uniform img v H).
Qed.

Lemma Convert_uniform_witness :
  Convert New blank = Some (replicate frameLength (if true then 0xFF else 0x00)).
Proof.
  apply (Convert_uniform blank true).
  intros i j [Hi Hj]. unfold white, pixelBit.
  change (Img.Dx (Img.Bounds blank)) with 0.
  replace (i <? 0) with false by lia. reflexivity.
Defined.

(** X10: the buffer depends on the image only through the bits of the
    pixels of the panel: two images that give the same bit at every pixel
    of the panel convert to the same buffer.  What an image holds at a
    column from 800 on or a row from 480 on is cut off. *)
Theorem Convert_reads_the_panel_only (img1 img2 : Img.Image) :
  (forall i j : Z, onPanel i j -> pixelBit img1 i j = pixelBit img2 i j) ->
  Convert New img1 = Convert New img2.
Proof.
  intros H. rewrite !Convert_frame.
  rewrite (frame_ext img1 img2); [reflexivity|].
  intros i j Hij. unfold white. now rewrite H.
Qed.

Lemma Convert_reads_the_panel_only_witness :
  Convert New poster = Convert New (shade 0xffff).
Proof.
  apply (Convert_reads_the_panel_only poster (shade 0xffff)).
  intros i j [Hi Hj]. unfold Epd7in5V2Width, Epd7in5V2Height in Hi, Hj.
  unfold pixelBit.
  change (Img.Dx (Img.Bounds poster)) with 1000.
  change (Img.Dy (Img.Bounds poster)) with 600.
  change (Img.Dx (Img.Bounds (shade 0xffff))) with 800.
  change (Img.Dy (Img.Bounds (shade 0xffff))) with 480.
  replace (i <? 1000) with true by lia. replace (j <? 600) with true by lia.
  replace (i <? 800) with true by lia. replace (j <? 480) with true by lia.
  cbn [andb poster Img.At].
  replace (i <? 800) with true by lia. replace (j <? 480) with true by lia.
  reflexivity.
Defined.

(** *** The threshold *)

Lemma sqDiff_small (x y : Z) :
  0 <= x <= 0xffff -> 0 <= y <= 0xffff ->
  Img.sqDiff x y = (x - y) * (x - y) / 4.
Proof.
  intros Hx Hy. unfold Img.sqDiff, Img.u32.
  change (2 ^ 32) with 4294967296.
  rewrite Z.mul_mod_idemp_l, Z.mul_mod_idemp_r by lia.
  assert (Hd : -65535 <= x - y <= 65535) by lia.
  generalize dependent (x - y). intros d Hd.
  assert (Hsq : 0 <= d * d <= 65535 * 65535).
  { split; [apply Z.square_nonneg|].
    destruct (Z.le_ge_cases 0 d).
    - apply Z.mul_le_mono_nonneg; lia.
    - replace (d * d) with ((- d) * (- d)) by ring.
      apply Z.mul_le_mono_nonneg; lia. }
  rewrite Z.mod_small by lia.
  now rewrite Z.shiftr_div_pow2 by lia.
Qed.

Lemma quarter_square_lt (a b : Z) :
  0 <= a <= 32767 -> 32768 <= b -> a * a / 4 < b * b / 4.
Proof.
  intros Ha Hb.
  assert (a * a / 4 <= 32767 * 32767 / 4)
    by (apply Z.div_le_mono; [lia|nia]).
  assert (32768 * 32768 / 4 <= b * b / 4)
    by (apply Z.div_le_mono; [lia|nia]).
  assert (32767 * 32767 / 4 < 32768 * 32768 / 4) by reflexivity.
  lia.
Qed.

Lemma quarter_square_le (a b : Z) :
  0 <= a <= b -> a * a / 4 <= b * b / 4.
Proof. intros H. apply Z.div_le_mono; [lia|nia]. Qed.

(** An opaque gray is nearer to white from the level 0x8000 on. *)
Lemma PaletteIndex_gray16 (y : Z) :
  0 <= y <= 0xffff ->
  Img.PaletteIndex [Img.Black; Img.White] (gray16 y)
  = if 0x8000 <=? y then 1 else 0.
Proof.
  intros Hy. unfold Img.PaletteIndex, gray16.
  cbn [Img.indexLoop Img.cR Img.cG Img.cB Img.cA Img.Black Img.White].
  rewrite !sqDiff_small by lia.
  replace ((0xffff - 0xffff) * (0xffff - 0xffff) / 4) with 0 by reflexivity.
  replace (y - 0) with y by lia.
  set (b := y * y / 4). set (w := (y - 0xffff) * (y - 0xffff) / 4).
  assert (Hb : 0 <= b <= 1073709056).
  { unfold b. split; [apply Z.div_pos; nia|].
    replace 1073709056 with (65535 * 65535 / 4) by reflexivity.
    apply Z.div_le_mono; [lia|nia]. }
  assert (Hw : 0 <= w <= 1073709056).
  { unfold w. split; [apply Z.div_pos; nia|].
    replace 1073709056 with (65535 * 65535 / 4) by reflexivity.
    apply Z.div_le_mono; [lia|nia]. }
  assert (Hcmp : w < b <-> 32768 <= y).
  { unfold w, b.
    replace ((y - 0xffff) * (y - 0xffff)) with ((0xffff - y) * (0xffff - y))
      by ring.
    split.
    - intros Hlt. destruct (Z.lt_ge_cases y 32768) as [Hs|Hs]; [|exact Hs].
      pose proof (quarter_square_le y (0xffff - y) ltac:(lia)). lia.
    - intros Hge. apply quarter_square_lt; lia. }
  unfold Img.u32. change (2 ^ 32) with 4294967296.
  rewrite !Z.mod_small by lia.
  replace (4294967296 - 1) with 4294967295 by reflexivity.
  replace (b + b + b + 0 <? 4294967295) with true by lia.
  destruct (b + b + b + 0 =? 0) eqn:Hb0.
  - replace (0x8000 <=? y) with false; [reflexivity|]. lia.
  - destruct (w + w + w + 0 <? b + b + b + 0) eqn:Hlt.
    + replace (0x8000 <=? y) with true by lia.
      now destruct (w + w + w + 0 =? 0).
    + replace (0x8000 <=? y) with false; [reflexivity|]. lia.
Qed.

(** X11: the pixel [(i, j)] of the panel is kept in the bit
    [7 - i mod 8] of the byte [j * bytes-per-row + i / 8] of the buffer.
    When it lies within the width and the height of the image and the
    image holds an opaque gray of level [y] there, the bit is 1 from the
    level 0x8000 on and 0 below. *)
Theorem Convert_pixel_threshold (img : Img.Image) (i j y : Z) :
  onPanel i j ->
  i < Img.Dx (Img.Bounds img) -> j < Img.Dy (Img.Bounds img) ->
  0 <= y <= 0xffff -> Img.At img i j = gray16 y ->
  exists (buf : list Z) (b : Z),
    Convert New img = Some buf
    /\ buf !! Z.to_nat (j * widthByte New + i / 8) = Some b
    /\ Z.testbit b (7 - i mod 8) = (0x8000 <=? y).
Proof.
  intros [Hi Hj] Hdx Hdy Hy Hat.
  unfold Epd7in5V2Width, Epd7in5V2Height in Hi, Hj.
  assert (Hq : 0 <= i / 8 < 100)
    by (split; [apply Z.div_pos; lia|apply Z.div_lt_upper_bound; lia]).
  assert (Hr : 0 <= i mod 8 < 8) by (apply Z.mod_pos_bound; lia).
  exists (frame img). eexists. split; [apply Convert_frame|].
  change (widthByte New) with 100. split.
  - rewrite frame_lookup_lt
      by (unfold frameLength;
          change (widthByte New * heightByte New) with 48000; lia).
    rewrite Z2Nat.id by lia. reflexivity.
  - unfold frameByte. change (widthByte New) with 100.
    rewrite <- (Z.div_unique (j * 100 + i / 8) 100 j (i / 8)) by lia.
    rewrite <- (Z.mod_unique (j * 100 + i / 8) 100 j (i / 8)) by lia.
    rewrite rowByte_testbit by lia.
    rewrite <- (Z.div_mod i 8) by lia.
    unfold white, pixelBit.
    replace (i <? Img.Dx (Img.Bounds img)) with true by lia.
    replace (j <? Img.Dy (Img.Bounds img)) with true by lia.
    cbn [andb]. rewrite Hat, PaletteIndex_gray16 by exact Hy.
    now destruct (0x8000 <=? y).
Qed.

Lemma Convert_pixel_threshold_witness :
  exists (buf : list Z) (b : Z),
    Convert New (shade 0x7fff) = Some buf
    /\ buf !! Z.to_nat (479 * widthByte New + 799 / 8) = Some b
    /\ Z.testbit b (7 - 799 mod 8) = (0x8000 <=? 0x7fff).
Proof.
  apply (Convert_pixel_threshold (shade 0x7fff) 799 479 0x7fff).
  - unfold onPanel, Epd7in5V2Width, Epd7in5V2Height. lia.
  - reflexivity.
  - reflexivity.
  - lia.
  - reflexivity.
Defined.

(** ** From the image to the channel *)

Lemma seqZ_4 (x : Z) : seqZ x 4 = [x; x + 1; x + 2; x + 3].
Proof.
  rewrite (seqZ_cons x 4) by lia. rewrite (seqZ_cons _ (Z.pred 4)) by lia.
  rewrite (seqZ_cons _ (Z.pred (Z.pred 4))) by lia.
  rewrite (seqZ_cons _ (Z.pred (Z.pred (Z.pred 4)))) by lia.
  rewrite seqZ_nil by lia. repeat f_equal; lia.
Qed.

Lemma flat_map_fmap (f : Z -> Z) (g : Z -> list Z) (l : list Z) :
  flat_map g (f <$> l) = flat_map (fun k => g (f k)) l.
Proof.
  induction l as [|k l IH]; [reflexivity|].
  cbn [fmap list_fmap flat_map]. now rewrite <- IH.
Qed.

Lemma flat_map_seqZ_4 (g : Z -> list Z) (h : Z -> Z) (n : nat) :
  forall a : Z,
    (forall k : Z,
       a <= k < a + Z.of_nat n ->
       g k = [h (4 * k); h (4 * k + 1); h (4 * k + 2); h (4 * k + 3)]) ->
    flat_map g (seqZ a (Z.of_nat n)) = h <$> seqZ (4 * a) (4 * Z.of_nat n).
Proof.
  induction n as [|n IH]; intros a H; [reflexivity|].
  rewrite seqZ_cons by lia.
  replace (Z.pred (Z.of_nat (S n))) with (Z.of_nat n) by lia.
  replace (4 * Z.of_nat (S n)) with (4 + 4 * Z.of_nat n) by lia.
  rewrite seqZ_app, seqZ_4 by lia.
  cbn [flat_map]. rewrite fmap_app. f_equal.
  - rewrite H by lia. reflexivity.
  - replace (4 * a + 4) with (4 * Z.succ a) by lia.
    apply IH. intros k Hk. apply H. lia.
Qed.

Lemma rowByte_bit (img : Img.Image) (j c n : Z) :
  0 <= c -> 8 * c + 7 < 2 ^ 32 -> 0 <= n < 8 ->
  Z.testbit (rowByte img j c) n = white img (8 * c + (7 - n)) j.
Proof.
  intros Hc Hm Hn. rewrite <- rowByte_testbit by lia.
  f_equal. lia.
Qed.

Lemma pair_index (k m : Z) :
  0 <= k -> 0 <= m < 4 ->
  (4 * k + m) / 400 = k / 100 /\ (4 * k + m) mod 400 = 4 * (k mod 100) + m.
Proof.
  intros Hk Hm.
  pose proof (Z.div_mod k 100 ltac:(lia)) as Hdm.
  pose proof (Z.mod_pos_bound k 100 ltac:(lia)) as Hr.
  split.
  - symmetry. apply (Z.div_unique _ _ _ (4 * (k mod 100) + m)); lia.
  - symmetry. apply (Z.mod_unique _ _ (k / 100)); lia.
Qed.

(** The four data bytes of a byte of the frame are the four pairs of
    pixels it holds. *)
Lemma frameByte_pairs (img : Img.Image) (k : Z) :
  0 <= k < widthByte New * heightByte New ->
  nibbleExpansion (frameByte (widthByte New) img k)
  = [pixelPair img (4 * k); pixelPair img (4 * k + 1);
     pixelPair img (4 * k + 2); pixelPair img (4 * k + 3)].
Proof.
  intros Hk. destruct (frame_index k Hk) as [Hc Hj].
  change (widthByte New) with 100 in *.
  unfold nibbleExpansion, nibblePair, frameByte, pixelPair.
  change pairsPerRow with 400.
  rewrite !rowByte_bit by lia.
  rewrite <- (Z.add_0_r (4 * k)) at 1 2 3 4.
  destruct (pair_index k 0 ltac:(lia) ltac:(lia)) as [-> ->].
  destruct (pair_index k 1 ltac:(lia) ltac:(lia)) as [-> ->].
  destruct (pair_index k 2 ltac:(lia) ltac:(lia)) as [-> ->].
  destruct (pair_index k 3 ltac:(lia) ltac:(lia)) as [-> ->].
  set (m := k mod 100).
  replace (8 * m + (7 - 7)) with (2 * (4 * m + 0)) by lia.
  replace (8 * m + (7 - (7 - 1))) with (2 * (4 * m + 0) + 1) by lia.
  replace (8 * m + (7 - 5)) with (2 * (4 * m + 1)) by lia.
  replace (8 * m + (7 - (5 - 1))) with (2 * (4 * m + 1) + 1) by lia.
  replace (8 * m + (7 - 3)) with (2 * (4 * m + 2)) by lia.
  replace (8 * m + (7 - (3 - 1))) with (2 * (4 * m + 2) + 1) by lia.
  replace (8 * m + (7 - 1)) with (2 * (4 * m + 3)) by lia.
  replace (8 * m + (7 - (1 - 1))) with (2 * (4 * m + 3) + 1) by lia.
  reflexivity.
Qed.

Lemma frame_pixelPairs (img : Img.Image) :
  flat_map nibbleExpansion (frame img) = pixelPairs img.
Proof.
  unfold frame, frameOn, pixelPairs. rewrite flat_map_fmap.
  rewrite <- (Z2Nat.id (widthByte New * heightByte New)) at 1
    by (vm_compute; discriminate).
  rewrite (flat_map_seqZ_4 _ (pixelPair img)).
  - rewrite Z2Nat.id by (vm_compute; discriminate). reflexivity.
  - intros k Hk. rewrite Z2Nat.id in Hk by (vm_compute; discriminate).
    apply frameByte_pairs. lia.
Qed.

(** X12: [Convert] and [Display] together.  On lines that do not fail and
    a panel that comes idle, displaying the buffer of an image puts on the
    channel the data-start command, then one data byte for every two
    horizontally adjacent pixels of the panel, row by row from the left,
    the left pixel in the high nibble, a white pixel as 0x3 and a black
    one as 0x0, and then the display-refresh command. *)
Theorem Display_Convert_pixel_pairs (P : Panel) (fuel n : nat)
    (img : Img.Image) (s : HW) :
  reliable P -> idleAfter P s n -> (n < fuel)%nat ->
  exists (buf : list Z) (s' : HW) (evs : list Event),
    Convert New img = Some buf
    /\ Display P fuel New buf s = (Ok tt, s')
    /\ trace s' = trace s ++ evs
    /\ forall dc : Level,
         exchanged dc evs =
           Command DataStartTransmission1
             :: map Data (pixelPairs img) ++ [Command DisplayRefresh].
Proof.
  intros Hrel Hidle Hn.
  destruct (Display_run P fuel n (frame img) s Hrel Hidle Hn)
    as (s' & Hs & Ht); [rewrite frame_length; lia|].
  eexists (frame img), s', _.
  split; [apply Convert_frame|]. split; [exact Hs|]. split; [exact Ht|].
  intros dc. rewrite exchanged_Display.
  rewrite <- (frame_length img), firstn_all.
  rewrite (flat_map_ext_all _ _ (frame img) expandByte_nibbles).
  now rewrite frame_pixelPairs.
Qed.

Lemma Display_Convert_pixel_pairs_witness :
  exists (buf : list Z) (s' : HW) (evs : list Event),
    Convert New stripe = Some buf
    /\ Display slow 4 New buf hw0 = (Ok tt, s')
    /\ trace s' = trace hw0 ++ evs
    /\ forall dc : Level,
         exchanged dc evs =
           Command DataStartTransmission1
             :: map Data (pixelPairs stripe) ++ [Command DisplayRefresh].
Proof.
  apply (Display_Convert_pixel_pairs slow 4 3 stripe hw0).
  - intros k. reflexivity.
  - apply slow_idleAfter. reflexivity.
  - lia.
Defined.

Lemma flat_map_expandByte_white (n : nat) :
  flat_map expandByte (replicate n 0xFF) = replicate (4 * n) 0x33.
Proof.
  induction n as [|n IH]; [reflexivity|].
  replace (4 * S n)%nat with (4 + 4 * n)%nat by lia.
  cbn [replicate flat_map Nat.add]. rewrite IH. reflexivity.
Qed.

(** X13: displaying the buffer of an image that is white all over the
    panel puts on the channel exactly what [Clear] puts there. *)
Theorem Display_white_is_Clear (P : Panel) (fuel n : nat) (img : Img.Image)
    (s : HW) :
  (forall i j : Z, onPanel i j -> white img i j = true) ->
  reliable P -> idleAfter P s n -> (n < fuel)%nat ->
  exists (buf : list Z) (s1 s2 : HW) (evs1 evs2 : list Event),
    Convert New img = Some buf
    /\ Display P fuel New buf s = (Ok tt, s1)
    /\ trace s1 = trace s ++ evs1
    /\ Clear P fuel New s = (Ok tt, s2)
    /\ trace s2 = trace s ++ evs2
    /\ forall dc : Level, exchanged dc evs1 = exchanged dc evs2.
Proof.
  intros Hwhite Hrel Hidle Hn.
  pose proof (frame_uniform img true Hwhite) as Hframe.
  destruct (Display_run P fuel n (frame img) s Hrel Hidle Hn)
    as (s1 & Hs1 & Ht1); [rewrite frame_length; lia|].
  destruct (Clear_run P fuel n s Hrel Hidle Hn) as (s2 & Hs2 & Ht2).
  eexists (frame img), s1, s2, _, _.
  split; [apply Convert_frame|]. split; [exact Hs1|]. split; [exact Ht1|].
  split; [exact Hs2|]. split; [exact Ht2|].
  assert (E : (4 * frameLength)%nat
              = Z.to_nat (4 * (widthByte New * heightByte New))).
  { unfold frameLength.
    pose proof New_width_nonneg. pose proof New_height_nonneg.
    rewrite (Z2Nat.inj_mul 4) by lia. reflexivity. }
  intros dc. rewrite exchanged_Display, exchanged_Clear.
  rewrite <- (frame_length img), firstn_all, Hframe.
  rewrite flat_map_expandByte_white, E. reflexivity.
Qed.

Lemma Display_white_is_Clear_witness :
  exists (buf : list Z) (s1 s2 : HW) (evs1 evs2 : list Event),
    Convert New blank = Some buf
    /\ Display slow 4 New buf hw0 = (Ok tt, s1)
    /\ trace s1 = trace hw0 ++ evs1
    /\ Clear slow 4 New hw0 = (Ok tt, s2)
    /\ trace s2 = trace hw0 ++ evs2
    /\ forall dc : Level, exchanged dc evs1 = exchanged dc evs2.
Proof.
  apply (Display_white_is_Clear slow 4 3 blank hw0).
  - intros i j [Hi Hj]. unfold white, pixelBit.
    change (Img.Dx (Img.Bounds blank)) with 0.
    replace (i <? 0) with false by lia. reflexivity.
  - intros k. reflexivity.
  - apply slow_idleAfter. reflexivity.
  - lia.
Defined.

Lemma expandByte_distinct :
  forallb
    (fun a =>
       forallb
         (fun b =>
            implb (bool_decide (expandByte a = expandByte b)) (a =? b))
         (seqZ 0 256))
    (seqZ 0 256) = true.
Proof. vm_compute. reflexivity. Qed.

(** X14: the expansion of [Display] loses nothing: two different bytes of
    a buffer never go out as the same four data bytes. *)
Theorem expandByte_injective (a b : Z) :
  Byte8.is_byte a -> Byte8.is_byte b -> a <> b ->
  expandByte a <> expandByte b.
Proof.
  intros Ha Hb Hne Heq. apply Hne. pose proof expandByte_distinct as T.
  rewrite forallb_forall in T.
  specialize (T a ltac:(apply list_elem_of_In, elem_of_seqZ;
                         unfold Byte8.is_byte in Ha; lia)).
  rewrite forallb_forall in T.
  specialize (T b ltac:(apply list_elem_of_In, elem_of_seqZ;
                         unfold Byte8.is_byte in Hb; lia)).
  rewrite (bool_decide_eq_true_2 _ Heq) in T. now apply Z.eqb_eq.
Qed.

Lemma expandByte_injective_witness : expandByte 0xA5 <> expandByte 0x5A.
Proof.
  apply (expandByte_injective 0xA5 0x5A).
  - unfold Byte8.is_byte. lia.
  - unfold Byte8.is_byte. lia.
  - lia.
Defined.

(** ** The constructor *)

Example New_sound :
  Boot.New Boot.sound "22" "8" "11" "18"
  = (inl (Boot.mkHandle (Boot.Line 2) (Boot.Line 1) (Boot.Line 2)
            (Boot.Line 2) New),
     [Boot.HostInit;
      Boot.ByName "22"; Boot.Out (Boot.Line 2) Low;
      Boot.ByName "8"; Boot.Out (Boot.Line 1) Low;
      Boot.ByName "11"; Boot.Out (Boot.Line 2) Low;
      Boot.ByName "18"; Boot.In (Boot.Line 2);
      Boot.Open; Boot.Connect 5000000 0 8]).
Proof. reflexivity. Qed.

Ltac boot_case HN :=
  match type of HN with
  | context [Boot.hostInit ?h] => destruct (Boot.hostInit h) eqn:?
  | context [Boot.byName ?h ?n] => destruct (Boot.byName h n) eqn:?
  | context [match ?p with Boot.INVALID => _ | Boot.Line _ => _ end] =>
      is_var p; destruct p
  | context [Boot.pinOut ?h ?p] => destruct (Boot.pinOut h p) eqn:?
  | context [Boot.pinIn ?h ?p] => destruct (Boot.pinIn h p) eqn:?
  | context [Boot.spiOpen ?h] => destruct (Boot.spiOpen h) eqn:?
  | context [Boot.portConnect ?h] => destruct (Boot.portConnect h) eqn:?
  | context [Boot.portClose ?h] => destruct (Boot.portClose h) eqn:?
  end.

Ltac boot_paths HN :=
  unfold Boot.New, Boot.andThen, Boot.attempt, Boot.find, Boot.pure,
    Boot.fail in HN;
  repeat (boot_case HN; cbn [fst snd app] in HN; try discriminate HN).

(** X15: [New] returns a handle exactly when every call it makes
    succeeds: the host initialises, the four names are found (the first
    one not as [gpio.INVALID]), the three output lines can be driven and
    the busy line made an input, and the port opens and connects.  It has
    then driven the lines dc, cs and rst low in this order, made busy an
    input, connected the port at 5 MHz, mode 0, 8 bits, and left it open;
    the handle holds the four lines and the geometry 800 / 8 by 480. *)
Theorem New_succeeds_iff (H : Boot.Host) (dcPin csPin rstPin busyPin : string)
    (h : Boot.Handle) (steps : list Boot.Step) :
  Boot.New H dcPin csPin rstPin busyPin = (inl h, steps)
  <-> exists (d : nat) (c r b : Boot.PinRef),
        Boot.hostInit H = None
        /\ Boot.byName H dcPin = Some (Boot.Line d)
        /\ Boot.pinOut H (Boot.Line d) = None
        /\ Boot.byName H csPin = Some c /\ Boot.pinOut H c = None
        /\ Boot.byName H rstPin = Some r /\ Boot.pinOut H r = None
        /\ Boot.byName H busyPin = Some b /\ Boot.pinIn H b = None
        /\ Boot.spiOpen H = None /\ Boot.portConnect H = None
        /\ h = Boot.mkHandle (Boot.Line d) c r b
                 (mkEpd (Epd7in5V2Width / 8) Epd7in5V2Height)
        /\ steps =
             [Boot.HostInit;
              Boot.ByName dcPin; Boot.Out (Boot.Line d) Low;
              Boot.ByName csPin; Boot.Out c Low;
              Boot.ByName rstPin; Boot.Out r Low;
              Boot.ByName busyPin; Boot.In b;
              Boot.Open; Boot.Connect 5000000 0 8].
Proof.
  split.
  - intros HN. boot_paths HN. injection HN as <- <-.
    eexists _, _, _, _. repeat split; eassumption.
  - intros (d & c & r & b & H1 & H2 & H3 & H4 & H5 & H6 & H7 & H8 & H9
            & H10 & H11 & -> & ->).
    unfold Boot.New, Boot.andThen, Boot.attempt, Boot.find, Boot.pure,
      Boot.fail.
    rewrite H1, H2, H3, H4, H5, H6, H7, H8, H9, H10, H11. reflexivity.
Qed.

(** X16: when [New] fails, it leaves no port open.  [Close] is among its
    steps exactly when the port was opened, which happens only when
    [Connect] failed; the steps then end with the opening, the connection
    and the closing of the port, and the error returned is that of [Close]
    when closing fails too, and that of [Connect] otherwise. *)
Theorem New_failure_closes_port (H : Boot.Host)
    (dcPin csPin rstPin busyPin : string) (e : Boot.GoError)
    (steps : list Boot.Step) :
  Boot.New H dcPin csPin rstPin busyPin = (inr e, steps) ->
  (In Boot.Close steps <-> In Boot.Open steps /\ Boot.spiOpen H = None)
  /\ (In Boot.Close steps ->
      exists (ec : Boot.GoError) (before : list Boot.Step),
        Boot.portConnect H = Some ec
        /\ e = match Boot.portClose H with
               | Some e' => e'
               | None => ec
               end
        /\ steps =
             before ++ [Boot.Open; Boot.Connect 5000000 0 8; Boot.Close]).
Proof.
  intros HN. boot_paths HN; injection HN as <- <-; cbn [In]; split;
    try (split; [intros Hin|intros [Hin Ho]]);
    try (intros Hin);
    try solve [ repeat (destruct Hin as [Hin|Hin]; try discriminate Hin);
                tauto
              | congruence
              | split; [tauto|reflexivity]
              | eexists _,
                  [Boot.HostInit; Boot.ByName dcPin; Boot.Out _ Low;
                   Boot.ByName csPin; Boot.Out _ Low;
                   Boot.ByName rstPin; Boot.Out _ Low;
                   Boot.ByName busyPin; Boot.In _];
                repeat split; reflexivity ].
Qed.

Lemma New_failure_closes_port_witness :
  (In Boot.Close
     [Boot.HostInit;
      Boot.ByName "22"; Boot.Out (Boot.Line 2) Low;
      Boot.ByName "8"; Boot.Out (Boot.Line 1) Low;
      Boot.ByName "11"; Boot.Out (Boot.Line 2) Low;
      Boot.ByName "18"; Boot.In (Boot.Line 2);
      Boot.Open; Boot.Connect 5000000 0 8; Boot.Close]
   <-> In Boot.Open
         [Boot.HostInit;
          Boot.ByName "22"; Boot.Out (Boot.Line 2) Low;
          Boot.ByName "8"; Boot.Out (Boot.Line 1) Low;
          Boot.ByName "11"; Boot.Out (Boot.Line 2) Low;
          Boot.ByName "18"; Boot.In (Boot.Line 2);
          Boot.Open; Boot.Connect 5000000 0 8; Boot.Close]
       /\ Boot.spiOpen Boot.deaf = None)
  /\ (In Boot.Close
        [Boot.HostInit;
         Boot.ByName "22"; Boot.Out (Boot.Line 2) Low;
         Boot.ByName "8"; Boot.Out (Boot.Line 1) Low;
         Boot.ByName "11"; Boot.Out (Boot.Line 2) Low;
         Boot.ByName "18"; Boot.In (Boot.Line 2);
         Boot.Open; Boot.Connect 5000000 0 8; Boot.Close] ->
      exists (ec : Boot.GoError) (before : list Boot.Step),
        Boot.portConnect Boot.deaf = Some ec
        /\ Boot.HostError 2 =
             match Boot.portClose Boot.deaf with
             | Some e' => e'
             | None => ec
             end
        /\ [Boot.HostInit;
            Boot.ByName "22"; Boot.Out (Boot.Line 2) Low;
            Boot.ByName "8"; Boot.Out (Boot.Line 1) Low;
            Boot.ByName "11"; Boot.Out (Boot.Line 2) Low;
            Boot.ByName "18"; Boot.In (Boot.Line 2);
            Boot.Open; Boot.Connect 5000000 0 8; Boot.Close]
           = before ++ [Boot.Open; Boot.Connect 5000000 0 8; Boot.Close]).
Proof.
  apply (New_failure_closes_port Boot.deaf "22" "8" "11" "18"
           (Boot.HostError 2)).
  reflexivity.
Defined.




